(** * ObjectEnumerationBuilder: a model of src/objectEnumerationBuilder.ts

    The builder accumulates [VisualObjectInstance] objects and their
    containers, merges instances that describe the same target, and offers
    the static combinators [normalize] and [merge].

    The TypeScript code works on shared mutable JavaScript objects: it
    stamps [containerIdx] on the caller's instance, grows property bags and
    arrays in place and hands arrays over by reference.  The model keeps
    that: every object lives in a [Heap], values hold addresses, and each
    method is a function from a heap (and the builder's fields) to the new
    heap. *)

From stdpp Require Import gmap strings list fin_maps functions.
From Stdlib Require Import ZArith Lia.

(** ** JavaScript values *)

(** Addresses of heap objects. *)
Definition loc := nat.

(** The values a property bag can hold.  Numbers are modelled as integers
    (no NaN, no fractions); objects are known by their address only, and
    the members of [Object.prototype] (functions, and the prototype itself
    under [__proto__]) by their name. *)
Inductive JsValue :=
| JsUndefined
| JsNull
| JsBoolean (b : bool)
| JsNumber (n : Z)
| JsString (s : string)
| JsObject (l : loc)
| JsBuiltin (name : string).

(** JavaScript's ToBoolean. *)
Definition truthy (v : JsValue) : bool :=
  match v with
  | JsUndefined | JsNull => false
  | JsBoolean b => b
  | JsNumber n => negb (n =? 0)%Z
  | JsString s => negb (String.eqb s "")
  | JsObject _ | JsBuiltin _ => true
  end.

(** A property bag: the plain object behind [properties] or [validValues]. *)
Abbreviation Bag := (gmap string JsValue).

(** The names a plain object inherits from [Object.prototype]. *)
Definition objectPrototypeMembers : list string :=
  ["constructor"; "__defineGetter__"; "__defineSetter__"; "hasOwnProperty";
   "__lookupGetter__"; "__lookupSetter__"; "isPrototypeOf";
   "propertyIsEnumerable"; "toString"; "valueOf"; "__proto__";
   "toLocaleString"].

Definition inherited (key : string) : bool :=
  existsb (String.eqb key) objectPrototypeMembers.

(** [bag[key]]: the bag's own value under the key; for a key the bag does
    not have, the member of [Object.prototype] of that name, or
    [undefined] when there is none. *)
Definition bagGet (bag : Bag) (key : string) : JsValue :=
  match bag !! key with
  | Some v => v
  | None => if inherited key then JsBuiltin key else JsUndefined
  end.

(** ** Record shapes of the host contract *)

Module Selector.
(** Modelled from the spec: the [Selector] type of ./common, which is not
    part of src.  The code reads [id] and [metadata] only; [data] stands
    for everything else a selector carries. *)
Record t := mk {
  id : option string;
  metadata : option string;
  data : JsValue
}.
End Selector.

(** What a variable of type [Selector] can hold at run time: one of the
    falsy values the code normalises, or the address of a selector. *)
Inductive SelectorValue :=
| SelUndefined
| SelNull
| SelFalse
| SelObject (l : loc).

Module VisualObjectInstance.
(** Modelled from the spec: powerbi.VisualObjectInstance, declared by the
    powerbi-visuals-api package.  The fields are the ones the builder
    touches; [properties] and [validValues] hold the address of a bag, or
    nothing when the field is absent. *)
Record t := mk {
  objectName : option string;
  selector : SelectorValue;
  containerIdx : option Z;
  properties : option loc;
  validValues : option loc
}.
End VisualObjectInstance.

Module EnumerationObject.
(** Modelled from the spec: powerbi.VisualObjectInstanceEnumerationObject,
    [{ instances, containers? }]; both fields hold array addresses. *)
Record t := mk {
  instances : loc;
  containers : option loc
}.
End EnumerationObject.

(** VisualObjectInstanceEnumeration: a list of instances or an enumeration
    object, and the two empty values a caller can pass instead. *)
Inductive Enumeration :=
| EnumUndefined
| EnumNull
| EnumArray (a : loc)
| EnumObject (o : loc).

(** ** The heap *)

(** One address space, one table per kind of object.  Containers are opaque
    to the builder, so a container array is a list of container addresses
    and no table of containers is needed. *)
Record Heap := mkHeap {
  h_next : loc;                                   (* next free address *)
  h_selector : loc -> Selector.t;                 (* selectors, never written *)
  h_instance : loc -> VisualObjectInstance.t;
  h_bag : loc -> Bag;
  h_instances : loc -> list loc;                  (* VisualObjectInstance[] *)
  h_containers : loc -> list loc;                 (* VisualObjectInstanceContainer[] *)
  h_enum : loc -> EnumerationObject.t
}.

Definition setInstance (h : Heap) (l : loc) (v : VisualObjectInstance.t) : Heap :=
  mkHeap (h_next h) (h_selector h) (<[l := v]> (h_instance h)) (h_bag h)
         (h_instances h) (h_containers h) (h_enum h).

Definition setBag (h : Heap) (l : loc) (v : Bag) : Heap :=
  mkHeap (h_next h) (h_selector h) (h_instance h) (<[l := v]> (h_bag h))
         (h_instances h) (h_containers h) (h_enum h).

Definition setInstances (h : Heap) (l : loc) (v : list loc) : Heap :=
  mkHeap (h_next h) (h_selector h) (h_instance h) (h_bag h)
         (<[l := v]> (h_instances h)) (h_containers h) (h_enum h).

Definition setContainers (h : Heap) (l : loc) (v : list loc) : Heap :=
  mkHeap (h_next h) (h_selector h) (h_instance h) (h_bag h)
         (h_instances h) (<[l := v]> (h_containers h)) (h_enum h).

Definition setEnum (h : Heap) (l : loc) (v : EnumerationObject.t) : Heap :=
  mkHeap (h_next h) (h_selector h) (h_instance h) (h_bag h)
         (h_instances h) (h_containers h) (<[l := v]> (h_enum h)).

Definition bump (h : Heap) : Heap :=
  mkHeap (S (h_next h)) (h_selector h) (h_instance h) (h_bag h)
         (h_instances h) (h_containers h) (h_enum h).

(** Allocation: the new object takes the next free address. *)
Definition allocBag (h : Heap) (v : Bag) : Heap * loc :=
  (bump (setBag h (h_next h) v), h_next h).

Definition allocInstances (h : Heap) (v : list loc) : Heap * loc :=
  (bump (setInstances h (h_next h) v), h_next h).

Definition allocContainers (h : Heap) (v : list loc) : Heap * loc :=
  (bump (setContainers h (h_next h) v), h_next h).

Definition allocEnum (h : Heap) (v : EnumerationObject.t) : Heap * loc :=
  (bump (setEnum h (h_next h) v), h_next h).

(** ** selectorEquals (lines 177-194) *)

(** [x || null]: every falsy value becomes [null]. *)
Definition orNull (x : SelectorValue) : option loc :=
  match x with
  | SelObject l => Some l
  | SelUndefined | SelNull | SelFalse => None
  end.

(** [a !== b] on [string | undefined]. *)
Definition strictNe (a b : option string) : bool :=
  negb (bool_decide (a = b)).

Definition selectorEquals (h : Heap) (x y : SelectorValue) : bool :=
  let x := orNull x in
  let y := orNull y in
  if bool_decide (x = y) then true                        (* x === y *)
  else if negb (Bool.eqb (negb (bool_decide (is_Some x)))
                         (negb (bool_decide (is_Some y))))
  then false                                              (* !x !== !y *)
  else
    match x, y with
    | Some a, Some b =>
        if strictNe (Selector.id (h_selector h a)) (Selector.id (h_selector h b))
        then false
        else if strictNe (Selector.metadata (h_selector h a))
                         (Selector.metadata (h_selector h b))
        then false
        else true
    | _, _ => true   (* not reached: both null left at x === y *)
    end.

(** ** canMerge (lines 110-115) *)

Definition canMerge (h : Heap) (x y : VisualObjectInstance.t) : bool :=
  bool_decide (VisualObjectInstance.objectName x = VisualObjectInstance.objectName y)
  && bool_decide (VisualObjectInstance.containerIdx x = VisualObjectInstance.containerIdx y)
  && selectorEquals h (VisualObjectInstance.selector x) (VisualObjectInstance.selector y).

(** ** extend (lines 117-135) *)

(** The two property names [extend] is called with. *)
Inductive PropertyName := Properties | ValidValues.

Definition getField (p : PropertyName) (i : VisualObjectInstance.t) : option loc :=
  match p with
  | Properties => VisualObjectInstance.properties i
  | ValidValues => VisualObjectInstance.validValues i
  end.

Definition setField (p : PropertyName) (i : VisualObjectInstance.t) (v : option loc)
  : VisualObjectInstance.t :=
  match p with
  | Properties =>
      VisualObjectInstance.mk (VisualObjectInstance.objectName i)
        (VisualObjectInstance.selector i) (VisualObjectInstance.containerIdx i)
        v (VisualObjectInstance.validValues i)
  | ValidValues =>
      VisualObjectInstance.mk (VisualObjectInstance.objectName i)
        (VisualObjectInstance.selector i) (VisualObjectInstance.containerIdx i)
        (VisualObjectInstance.properties i) v
  end.

(** One round of the [for ... in] loop, for the key [key] holding [value]
    in the source bag.  The test reads [targetValues[key]] through the
    prototype, so a key named like a member of [Object.prototype] that the
    target does not have reads truthy and is skipped. *)
Definition extendKey (key : string) (value : JsValue) (targetValues : Bag) : Bag :=
  if truthy (bagGet targetValues key)
  then targetValues                       (* first-writer-wins: continue *)
  else <[key := value]> targetValues.

(** The whole loop over the keys of [sourceValues]. *)
Definition extendBag (targetValues sourceValues : Bag) : Bag :=
  map_fold extendKey targetValues sourceValues.

Definition extend (h : Heap) (target source : loc) (p : PropertyName) : Heap :=
  match getField p (h_instance h source) with
  | None => h                                              (* !sourceValues *)
  | Some sourceValues =>
      let '(h, targetValues) :=
        match getField p (h_instance h target) with
        | Some t => (h, t)
        | None =>
            let '(h, t) := allocBag h ∅ in
            (setInstance h target (setField p (h_instance h target) (Some t)), t)
        end in
      setBag h targetValues (extendBag (h_bag h targetValues) (h_bag h sourceValues))
  end.

(** ** The builder (lines 41-108) *)

Module Builder.
(** The three private fields of the class; each starts out [undefined]. *)
Record t := mk {
  instances : option loc;
  containers : option loc;
  containerIdx : option Z
}.
End Builder.

(** [new ObjectEnumerationBuilder()]. *)
Definition newBuilder : Builder.t := Builder.mk None None None.

(** [instance.containerIdx = containerIdx]. *)
Definition withContainerIdx (i : VisualObjectInstance.t) (idx : option Z)
  : VisualObjectInstance.t :=
  VisualObjectInstance.mk (VisualObjectInstance.objectName i)
    (VisualObjectInstance.selector i) idx
    (VisualObjectInstance.properties i) (VisualObjectInstance.validValues i).

(** Lines 53-56: stamp the incoming instance with the cursor, if one is set. *)
Definition stamp (h : Heap) (cursor : option Z) (instance : loc) : Heap :=
  match cursor with
  | Some idx =>
      setInstance h instance (withContainerIdx (h_instance h instance) (Some idx))
  | None => h
  end.

(** Lines 60-67: the loop over the accumulated instances.  Its body writes
    nothing before it returns, so it runs over the array as read on entry.
    [Some h'] is the early [return this]; [None] is falling out of the loop. *)
Fixpoint tryMerge (h : Heap) (instances : list loc) (instance : loc) : option Heap :=
  match instances with
  | [] => None
  | existingInstance :: rest =>
      if canMerge h (h_instance h existingInstance) (h_instance h instance)
      then Some (extend (extend h existingInstance instance Properties)
                        existingInstance instance ValidValues)
      else tryMerge h rest instance
  end.

(** Lines 48-51: the instance array of the builder, allocated on first use. *)
Definition ensureInstances (h : Heap) (b : Builder.t) : Heap * Builder.t * loc :=
  match Builder.instances b with
  | Some a => (h, b, a)
  | None =>
      let '(h, a) := allocInstances h [] in
      (h, Builder.mk (Some a) (Builder.containers b) (Builder.containerIdx b), a)
  end.

Definition pushInstance (h : Heap) (b : Builder.t) (instance : loc)
    (mergeInstances : bool) : Heap * Builder.t :=
  let '(h, b, instances) := ensureInstances h b in
  let h := stamp h (Builder.containerIdx b) instance in
  match (if mergeInstances then tryMerge h (h_instances h instances) instance
         else None) with
  | Some h => (h, b)
  | None => (setInstances h instances (h_instances h instances ++ [instance]), b)
  end.

Definition pushContainer (h : Heap) (b : Builder.t) (container : loc)
  : Heap * Builder.t :=
  let '(h, containers) :=
    match Builder.containers b with
    | Some c => (h, c)
    | None => allocContainers h []
    end in
  let h := setContainers h containers (h_containers h containers ++ [container]) in
  let updatedLen := Z.of_nat (length (h_containers h containers)) in
  (h, Builder.mk (Builder.instances b) (Some containers) (Some (updatedLen - 1)%Z)).

Definition popContainer (h : Heap) (b : Builder.t) : Heap * Builder.t :=
  (h, Builder.mk (Builder.instances b) (Builder.containers b) None).

Definition complete (h : Heap) (b : Builder.t) : Heap * Enumeration :=
  match Builder.instances b with
  | None => (h, EnumUndefined)
  | Some instances =>
      let '(h, result) := allocEnum h (EnumerationObject.mk instances None) in
      let h :=
        match Builder.containers b with
        | Some containers =>
            setEnum h result (EnumerationObject.mk
                                (EnumerationObject.instances (h_enum h result))
                                (Some containers))
        | None => h
        end in
      (h, EnumObject result)
  end.

(** ** normalize (lines 164-171) and merge (lines 137-162) *)

Definition normalize (h : Heap) (x : Enumeration) : Heap * Enumeration :=
  match x with
  | EnumArray a =>
      let '(h, o) := allocEnum h (EnumerationObject.mk a None) in
      (h, EnumObject o)
  | _ => (h, x)
  end.

(** [yInstance.containerIdx += xCategoryCount], under [!= null]. *)
Definition rebase (offset : Z) (i : VisualObjectInstance.t) : VisualObjectInstance.t :=
  match VisualObjectInstance.containerIdx i with
  | Some idx => withContainerIdx i (Some (idx + offset)%Z)
  | None => i
  end.

(** Lines 146-151.  The [for ... of] loop reads [yInstances] afresh at every
    step while the body pushes onto x's array; when both are one array the
    loop never ends, so the model counts steps with [fuel] and answers
    [None] when it runs out. *)
Fixpoint mergeLoop (fuel : nat) (h : Heap) (xNormalized yInstances : loc)
    (xCategoryCount : Z) (index : nat) : option Heap :=
  match fuel with
  | O => None
  | S fuel =>
      match h_instances h yInstances !! index with
      | None => Some h
      | Some yInstance =>
          let xInstances := EnumerationObject.instances (h_enum h xNormalized) in
          let h := setInstances h xInstances (h_instances h xInstances ++ [yInstance]) in
          let h := setInstance h yInstance (rebase xCategoryCount (h_instance h yInstance)) in
          mergeLoop fuel h xNormalized yInstances xCategoryCount (S index)
      end
  end.

(** [_.isEmpty] on [containers]: absent, or an array of length 0. *)
Definition isEmpty (h : Heap) (containers : option loc) : bool :=
  match containers with
  | None => true
  | Some c => bool_decide (h_containers h c = [])
  end.

(** Truthiness of an enumeration value. *)
Definition isResult (x : Enumeration) : bool :=
  match x with
  | EnumUndefined | EnumNull => false
  | EnumArray _ | EnumObject _ => true
  end.

Definition merge (fuel : nat) (h : Heap) (x y : Enumeration)
  : option (Heap * Enumeration) :=
  let '(h, xNormalized) := normalize h x in
  let '(h, yNormalized) := normalize h y in
  match xNormalized, yNormalized with
  | EnumObject xo, EnumObject yo =>
      let xCategoryCount :=
        match EnumerationObject.containers (h_enum h xo) with
        | Some c => Z.of_nat (length (h_containers h c))
        | None => 0%Z
        end in
      match mergeLoop fuel h xo (EnumerationObject.instances (h_enum h yo))
                      xCategoryCount 0 with
      | None => None
      | Some h =>
          let yContainers := EnumerationObject.containers (h_enum h yo) in
          let h :=
            if isEmpty h yContainers then h
            else
              match EnumerationObject.containers (h_enum h xo) with
              | Some xc =>
                  setContainers h xc
                    (h_containers h xc ++ from_option (h_containers h) [] yContainers)
              | None =>
                  setEnum h xo (EnumerationObject.mk
                                  (EnumerationObject.instances (h_enum h xo))
                                  yContainers)
              end in
          Some (h, EnumObject xo)
      end
  | _, _ =>
      (* !xNormalized || !yNormalized *)
      Some (h, if isResult xNormalized then xNormalized else yNormalized)
  end.

(** The heap at the merge check: array allocated, incoming instance stamped. *)
Definition atMergeCheck (h : Heap) (b : Builder.t) (instance : loc) : Heap :=
  stamp (ensureInstances h b).1.1 (Builder.containerIdx b) instance.

(** The sequences the builder has accumulated so far; empty while the
    array is not allocated. *)
Definition builderInstances (h : Heap) (b : Builder.t) : list loc :=
  from_option (h_instances h) [] (Builder.instances b).

Definition builderContainers (h : Heap) (b : Builder.t) : list loc :=
  from_option (h_containers h) [] (Builder.containers b).

(** ** Runs of builder calls *)

Inductive Call :=
| PushInstance (instance : loc) (mergeInstances : bool)
| PushContainer (container : loc)
| PopContainer.

Definition call (s : Heap * Builder.t) (c : Call) : Heap * Builder.t :=
  match c with
  | PushInstance i m => pushInstance s.1 s.2 i m
  | PushContainer k => pushContainer s.1 s.2 k
  | PopContainer => popContainer s.1 s.2
  end.

Definition run (s : Heap * Builder.t) (calls : list Call) : Heap * Builder.t :=
  foldl call s calls.

Definition isPushInstance (c : Call) : bool :=
  match c with PushInstance _ _ => true | _ => false end.

Definition isPushContainer (c : Call) : bool :=
  match c with PushContainer _ => true | _ => false end.

(** ** Views used to state results *)

(** Truthiness of a selector value. *)
Definition selectorTruthy (x : SelectorValue) : bool :=
  match x with
  | SelObject _ => true
  | SelUndefined | SelNull | SelFalse => false
  end.

(** The content of an enumeration value: its instances in order, and its
    containers when the field is there.  The empty values have no content. *)
Definition enumView (h : Heap) (x : Enumeration)
  : option (list loc * option (list loc)) :=
  match x with
  | EnumUndefined | EnumNull => None
  | EnumArray a => Some (h_instances h a, None)
  | EnumObject o =>
      Some (h_instances h (EnumerationObject.instances (h_enum h o)),
            h_containers h <$> EnumerationObject.containers (h_enum h o))
  end.

(** The containers of an enumeration object, none when the field is absent. *)
Definition enumContainers (h : Heap) (o : loc) : list loc :=
  from_option (h_containers h) [] (EnumerationObject.containers (h_enum h o)).

(** A small heap to run examples on: nothing allocated below [next]. *)
Definition blankHeap (next : loc) : Heap :=
  mkHeap next
    (fun _ => Selector.mk None None JsUndefined)
    (fun _ => VisualObjectInstance.mk None SelUndefined None None None)
    (fun _ => ∅) (fun _ => []) (fun _ => [])
    (fun _ => EnumerationObject.mk 0 None).

(** Two instances of the object "general" at addresses 0 and 1, neither with
    a selector nor a container, whose [properties] are the bags at 2 and 3. *)
Definition twoInstances (bagA bagB : Bag) : Heap :=
  setBag (setBag
    (setInstance (setInstance (blankHeap 4)
       0 (VisualObjectInstance.mk (Some "general") SelUndefined None (Some 2) None))
       1 (VisualObjectInstance.mk (Some "general") SelUndefined None (Some 3) None))
    2 bagA) 3 bagB.

(** [rebase offset] applied [times] times, in closed form. *)
Definition rebaseBy (times : nat) (offset : Z) (i : VisualObjectInstance.t)
  : VisualObjectInstance.t :=
  withContainerIdx i
    ((fun idx => (idx + Z.of_nat times * offset)%Z)
       <$> VisualObjectInstance.containerIdx i).

(** Two enumeration objects, at 0 and 1.  Each has one instance (6 and 7)
    with [containerIdx = 0], in the arrays at 2 and 3, and one container
    (8 and 9), in the arrays at 4 and 5. *)
Definition twoResults : Heap :=
  setContainers (setContainers
    (setInstances (setInstances
      (setInstance (setInstance
        (setEnum (setEnum (blankHeap 10)
           0 (EnumerationObject.mk 2 (Some 4)))
           1 (EnumerationObject.mk 3 (Some 5)))
        6 (VisualObjectInstance.mk (Some "general") SelUndefined (Some 0%Z) None None))
        7 (VisualObjectInstance.mk (Some "general") SelUndefined (Some 0%Z) None None))
      2 [6]) 3 [7])
    4 [8]) 5 [9].

(** ** getContainerForInstance (lines 173-175) *)

(** How a call ends: with a value, or with a TypeError. *)
Inductive Completion (A : Type) :=
| Throws
| Returns (a : A).
Arguments Throws {A}.
Arguments Returns {A} a.

(** [array[index]] for an index of type [number | undefined]: an element
    for an index within the array, [undefined] (here [None]) otherwise. *)
Definition arrayGet (array : list loc) (index : option Z) : option loc :=
  match index with
  | Some idx => if (0 <=? idx)%Z then array !! Z.to_nat idx else None
  | None => None
  end.

(** [enumeration.containers[instance.containerIdx]]: reading an index of
    an absent [containers] throws. *)
Definition getContainerForInstance (h : Heap) (enumeration instance : loc)
  : Completion (option loc) :=
  match EnumerationObject.containers (h_enum h enumeration) with
  | None => Throws
  | Some containers =>
      Returns (arrayGet (h_containers h containers)
                 (VisualObjectInstance.containerIdx (h_instance h instance)))
  end.

(** ** What folding one instance into another means *)

(** Stated from the wording of the specification (4.2, extend): every key
    of the source is copied into the target unless the target already
    reads truthy under it; the target's other keys stay. *)
Definition foldedKeys (before source after : Bag) : Prop :=
  forall key,
    after !! key =
    match source !! key with
    | Some v => if truthy (bagGet before key) then before !! key else Some v
    | None => before !! key
    end.

(** Stated from the wording of the specification (4.2, extend): what a
    heap [h'] must look like when, starting from [h], the field [p] of
    [source] has been folded into [target].  An absent source field is a
    no-op; otherwise the target's bag (a new one when the target had
    none) holds the folded keys, and no other bag, no other instance, no
    other field of the target and no array has changed. *)
Definition foldedInto (h h' : Heap) (target source : loc) (p : PropertyName)
  : Prop :=
  match getField p (h_instance h source) with
  | None => h' = h
  | Some sb =>
      exists tb,
        getField p (h_instance h' target) = Some tb /\
        match getField p (h_instance h target) with
        | Some tb0 => tb = tb0
        | None => tb = h_next h
        end /\
        foldedKeys (from_option (h_bag h) ∅ (getField p (h_instance h target)))
                   (h_bag h sb) (h_bag h' tb) /\
        (forall l, l <> tb -> h_bag h' l = h_bag h l) /\
        (forall l, l <> target -> h_instance h' l = h_instance h l) /\
        (forall q, q <> p ->
           getField q (h_instance h' target) = getField q (h_instance h target)) /\
        VisualObjectInstance.objectName (h_instance h' target)
          = VisualObjectInstance.objectName (h_instance h target) /\
        VisualObjectInstance.selector (h_instance h' target)
          = VisualObjectInstance.selector (h_instance h target) /\
        VisualObjectInstance.containerIdx (h_instance h' target)
          = VisualObjectInstance.containerIdx (h_instance h target) /\
        h_instances h' = h_instances h
  end.

(** ** Predicates on builder states *)

(** No two accumulated instances describe the same target. *)
Definition distinctTargets (h : Heap) (instances : list loc) : Prop :=
  forall j k x y,
    j < k -> instances !! j = Some x -> instances !! k = Some y ->
    canMerge h (h_instance h x) (h_instance h y) = false.

(** The cursor, when set, is the index of the last container. *)
Definition cursorAtLast (h : Heap) (b : Builder.t) : Prop :=
  forall idx,
    Builder.containerIdx b = Some idx ->
    builderContainers h b <> [] /\
    idx = (Z.of_nat (length (builderContainers h b)) - 1)%Z.

(** Every [containerIdx] in the heap is an index into the builder's
    containers. *)
Definition validContainerIdx (h : Heap) (b : Builder.t) : Prop :=
  forall l idx,
    VisualObjectInstance.containerIdx (h_instance h l) = Some idx ->
    (0 <= idx < Z.of_nat (length (builderContainers h b)))%Z.

(** The instances a run pushes, in order, and whether all its pushes ask
    for merging, or none does. *)
Definition pushed (calls : list Call) : list loc :=
  omap (fun c => match c with PushInstance i _ => Some i | _ => None end) calls.

Definition allMerging (calls : list Call) : bool :=
  forallb (fun c => match c with PushInstance _ m => m | _ => true end) calls.

Definition noneMerging (calls : list Call) : bool :=
  forallb (fun c => match c with PushInstance _ m => negb m | _ => true end) calls.

(** * Theorems *)

(** ** Selector equality *)

Lemma selectorEquals_falsy h x y :
  selectorTruthy x = false -> selectorTruthy y = false ->
  selectorEquals h x y = true.
Proof. by destruct x, y. Qed.

Lemma selectorEquals_one_falsy h x y :
  selectorTruthy x <> selectorTruthy y -> selectorEquals h x y = false.
Proof. by destruct x, y. Qed.

Lemma selectorEquals_objects h a b :
  selectorEquals h (SelObject a) (SelObject b) = true <->
  Selector.id (h_selector h a) = Selector.id (h_selector h b) /\
  Selector.metadata (h_selector h a) = Selector.metadata (h_selector h b).
Proof.
  unfold selectorEquals, strictNe; cbn.
  case_bool_decide as Hab.
  - simplify_eq. tauto.
  - repeat case_bool_decide; cbn; intuition congruence.
Qed.

(** C8.  Falsy selectors count as "no selector": two of them are equal,
    one of them against a selector object is unequal, and two selector
    objects are equal exactly when their [id]s and their [metadata]s are
    equal, whatever else they hold; [selectorEquals(undefined, false)] holds. *)
Theorem C8_selectorEquals (h : Heap) :
  (forall x y, selectorTruthy x = false -> selectorTruthy y = false ->
               selectorEquals h x y = true) /\
  (forall x y, selectorTruthy x <> selectorTruthy y ->
               selectorEquals h x y = false) /\
  (forall a b,
      selectorEquals h (SelObject a) (SelObject b) = true <->
      Selector.id (h_selector h a) = Selector.id (h_selector h b) /\
      Selector.metadata (h_selector h a) = Selector.metadata (h_selector h b)) /\
  selectorEquals h SelUndefined SelFalse = true.
Proof.
  split; [exact (selectorEquals_falsy h)|].
  split; [exact (selectorEquals_one_falsy h)|].
  split; [exact (selectorEquals_objects h)|reflexivity].
Qed.

Lemma C8_selectorEquals_witness :
  selectorEquals (blankHeap 2) SelNull SelFalse = true /\
  selectorEquals (blankHeap 2) (SelObject 0) SelUndefined = false /\
  selectorEquals (blankHeap 2) (SelObject 0) (SelObject 1) = true.
Proof.
  destruct (C8_selectorEquals (blankHeap 2)) as (Hff & Hone & Hobj & _).
  split; [apply Hff; reflexivity|].
  split; [apply Hone; discriminate|].
  apply Hobj. split; reflexivity.
Defined.

(** ** Property bags: what the [extend] loop leaves in the target *)

Lemma extendKey_lookup key value targetValues k :
  extendKey key value targetValues !! k =
  if bool_decide (k = key) && negb (truthy (bagGet targetValues key))
  then Some value else targetValues !! k.
Proof.
  unfold extendKey. case_bool_decide as Hk; cbn.
  - subst k. destruct (truthy _); cbn; [done|]. by rewrite lookup_insert_eq.
  - destruct (truthy _); [done|]. by rewrite lookup_insert_ne.
Qed.

(** Key by key: a key of the source lands in the target unless the target
    already holds a truthy value under it; all other keys stay. *)
Lemma extendBag_lookup (targetValues sourceValues : Bag) (k : string) :
  extendBag targetValues sourceValues !! k =
  match sourceValues !! k with
  | Some v => if truthy (bagGet targetValues k) then targetValues !! k else Some v
  | None => targetValues !! k
  end.
Proof.
  unfold extendBag. revert k.
  apply (map_fold_weak_ind
           (fun r (m : Bag) => forall k, r !! k =
              match m !! k with
              | Some v => if truthy (bagGet targetValues k)
                          then targetValues !! k else Some v
              | None => targetValues !! k
              end)).
  - intros k. by rewrite lookup_empty.
  - intros i x m r Hi IH k. rewrite extendKey_lookup.
    case_bool_decide as Hk; cbn.
    + subst k. rewrite lookup_insert_eq.
      assert (bagGet r i = bagGet targetValues i) as ->.
      { unfold bagGet. by rewrite IH, Hi. }
      destruct (truthy _); cbn; [|done]. by rewrite IH, Hi.
    + rewrite lookup_insert_ne by done. apply IH.
Qed.

(** First writer wins as long as the first value is truthy. *)
Lemma extendBag_keeps_truthy (targetValues sourceValues : Bag) k :
  truthy (bagGet targetValues k) = true ->
  extendBag targetValues sourceValues !! k = targetValues !! k.
Proof.
  intros Ht. rewrite extendBag_lookup, Ht. by destruct (sourceValues !! k).
Qed.

(** A falsy first value does not count as written. *)
Lemma extendBag_overwrites_falsy (targetValues sourceValues : Bag) k v :
  truthy (bagGet targetValues k) = false ->
  sourceValues !! k = Some v ->
  extendBag targetValues sourceValues !! k = Some v.
Proof. intros Ht Hs. by rewrite extendBag_lookup, Hs, Ht. Qed.

Lemma extendBag_same (bag : Bag) : extendBag bag bag = bag.
Proof.
  apply map_eq. intros k. rewrite extendBag_lookup.
  unfold bagGet. destruct (bag !! k) eqn:E; [|done]. by destruct (truthy _).
Qed.

(** ** What [extend] leaves alone *)

Lemma extend_instances h t s p : h_instances (extend h t s p) = h_instances h.
Proof.
  unfold extend. destruct (getField p (h_instance h s)); [|done].
  by destruct (getField p (h_instance h t)).
Qed.

Lemma extend_containers h t s p : h_containers (extend h t s p) = h_containers h.
Proof.
  unfold extend. destruct (getField p (h_instance h s)); [|done].
  by destruct (getField p (h_instance h t)).
Qed.

Lemma extend_enum h t s p : h_enum (extend h t s p) = h_enum h.
Proof.
  unfold extend. destruct (getField p (h_instance h s)); [|done].
  by destruct (getField p (h_instance h t)).
Qed.

Lemma extend_selector h t s p : h_selector (extend h t s p) = h_selector h.
Proof.
  unfold extend. destruct (getField p (h_instance h s)); [|done].
  by destruct (getField p (h_instance h t)).
Qed.

Lemma extend_containerIdx h t s p l :
  VisualObjectInstance.containerIdx (h_instance (extend h t s p) l) =
  VisualObjectInstance.containerIdx (h_instance h l).
Proof.
  unfold extend. destruct (getField p (h_instance h s)); [|done].
  destruct (getField p (h_instance h t)); [done|]. cbn.
  unfold insert, fn_insert. case_decide; [subst|done]. by destruct p.
Qed.

Lemma extend_objectName h t s p l :
  VisualObjectInstance.objectName (h_instance (extend h t s p) l) =
  VisualObjectInstance.objectName (h_instance h l).
Proof.
  unfold extend. destruct (getField p (h_instance h s)); [|done].
  destruct (getField p (h_instance h t)); [done|]. cbn.
  unfold insert, fn_insert. case_decide; [subst|done]. by destruct p.
Qed.

Lemma extend_other_instance h t s p l :
  l <> t -> h_instance (extend h t s p) l = h_instance h l.
Proof.
  intros Hl. unfold extend. destruct (getField p (h_instance h s)); [|done].
  destruct (getField p (h_instance h t)); [done|]. cbn.
  by rewrite fn_lookup_insert_ne.
Qed.

(** When both instances carry the field, the target's bag takes the
    source's keys and no other bag changes. *)
Lemma extend_bag h t s p tb sb :
  getField p (h_instance h t) = Some tb ->
  getField p (h_instance h s) = Some sb ->
  h_instance (extend h t s p) = h_instance h /\
  h_bag (extend h t s p) tb = extendBag (h_bag h tb) (h_bag h sb) /\
  forall l, l <> tb -> h_bag (extend h t s p) l = h_bag h l.
Proof.
  intros Ht Hs. unfold extend. rewrite Hs, Ht. cbn.
  split; [done|]. split; [by rewrite fn_lookup_insert|].
  intros l Hl. by rewrite fn_lookup_insert_ne.
Qed.

(** ** First writer wins, and where it does not *)

(** The example of the specification: A with [{p: 1}], then a mergeable B
    with [{p: 2, q: 3}], leaves one instance with [{p: 1, q: 3}]. *)
Lemma first_writer_wins_example :
  let s := run (twoInstances {[ "p" := JsNumber 1 ]}
                             {[ "p" := JsNumber 2; "q" := JsNumber 3 ]},
                newBuilder)
               [PushInstance 0 true; PushInstance 1 true] in
  Builder.instances s.2 = Some 4 /\
  h_instances s.1 4 = [0] /\
  h_bag s.1 2 = {[ "p" := JsNumber 1; "q" := JsNumber 3 ]}.
Proof. vm_compute. done. Qed.

(** C1.  The value the kept instance holds under a key is overwritten by a
    later merge when that value is falsy: A with [{p: false}], then a
    mergeable B with [{p: true}], leaves one instance with [{p: true}]. *)
Theorem C1_falsy_value_overwritten :
  let s := run (twoInstances {[ "p" := JsBoolean false ]}
                             {[ "p" := JsBoolean true ]},
                newBuilder)
               [PushInstance 0 true; PushInstance 1 true] in
  Builder.instances s.2 = Some 4 /\
  h_instances s.1 4 = [0] /\
  h_bag s.1 2 = {[ "p" := JsBoolean true ]}.
Proof. vm_compute. done. Qed.

(** ** pushInstance *)

Lemma ensureInstances_cursor h b :
  Builder.containerIdx (ensureInstances h b).1.2 = Builder.containerIdx b /\
  Builder.containers (ensureInstances h b).1.2 = Builder.containers b /\
  Builder.instances (ensureInstances h b).1.2 = Some (ensureInstances h b).2.
Proof. unfold ensureInstances. by destruct (Builder.instances b) eqn:E, b; simplify_eq/=. Qed.

Lemma tryMerge_none h xs i :
  tryMerge h xs i = None <->
  forall x, x ∈ xs -> canMerge h (h_instance h x) (h_instance h i) = false.
Proof.
  induction xs as [|e xs IH]; cbn.
  - split; [|done]. intros _ x Hx. by apply elem_of_nil in Hx.
  - destruct (canMerge h (h_instance h e) (h_instance h i)) eqn:E.
    + split; [done|]. intros H. specialize (H e (list_elem_of_here _ _)). congruence.
    + rewrite IH. split.
      * intros H x [->|Hx]%elem_of_cons; auto.
      * intros H x Hx. apply H. by apply list_elem_of_further.
Qed.

Lemma tryMerge_first h pre e post i :
  (forall x, x ∈ pre -> canMerge h (h_instance h x) (h_instance h i) = false) ->
  canMerge h (h_instance h e) (h_instance h i) = true ->
  tryMerge h (pre ++ e :: post) i =
  Some (extend (extend h e i Properties) e i ValidValues).
Proof.
  intros Hpre He. induction pre as [|x pre IH]; cbn.
  - by rewrite He.
  - rewrite (Hpre x) by apply list_elem_of_here.
    apply IH. intros y Hy. apply Hpre. by apply list_elem_of_further.
Qed.

Lemma tryMerge_some h xs i h' :
  tryMerge h xs i = Some h' ->
  exists x, x ∈ xs /\ canMerge h (h_instance h x) (h_instance h i) = true.
Proof.
  induction xs as [|e xs IH]; cbn; [done|].
  destruct (canMerge h (h_instance h e) (h_instance h i)) eqn:E.
  - intros _. exists e. split; [apply list_elem_of_here|done].
  - intros (x & Hx & Hc)%IH. exists x. split; [by apply list_elem_of_further|done].
Qed.

Lemma tryMerge_instances h xs i h' :
  tryMerge h xs i = Some h' -> h_instances h' = h_instances h.
Proof.
  induction xs as [|e xs IH]; cbn; [done|].
  destruct (canMerge _ _ _); [|done].
  intros [= <-]. by rewrite !extend_instances.
Qed.

Lemma tryMerge_containerIdx h xs i h' l :
  tryMerge h xs i = Some h' ->
  VisualObjectInstance.containerIdx (h_instance h' l) =
  VisualObjectInstance.containerIdx (h_instance h l).
Proof.
  induction xs as [|e xs IH]; cbn; [done|].
  destruct (canMerge _ _ _); [|done].
  intros [= <-]. by rewrite !extend_containerIdx.
Qed.

Lemma stamp_containerIdx h cursor i l :
  VisualObjectInstance.containerIdx (h_instance (stamp h cursor i) l) =
  match cursor with
  | Some idx => if bool_decide (l = i) then Some idx
                else VisualObjectInstance.containerIdx (h_instance h l)
  | None => VisualObjectInstance.containerIdx (h_instance h l)
  end.
Proof.
  destruct cursor as [idx|]; cbn; [|done].
  unfold insert, fn_insert. case_bool_decide; subst.
  - by rewrite decide_True.
  - by rewrite decide_False.
Qed.

Lemma pushInstance_unfold h b instance mergeInstances :
  pushInstance h b instance mergeInstances =
  let hs := atMergeCheck h b instance in
  let arr := (ensureInstances h b).2 in
  match (if mergeInstances then tryMerge hs (h_instances hs arr) instance
         else None) with
  | Some h' => (h', (ensureInstances h b).1.2)
  | None => (setInstances hs arr (h_instances hs arr ++ [instance]),
             (ensureInstances h b).1.2)
  end.
Proof.
  unfold pushInstance, atMergeCheck.
  pose proof (ensureInstances_cursor h b) as (Hc & _).
  destruct (ensureInstances h b) as [[h0 b0] arr]. cbn in *. by rewrite Hc.
Qed.

(** ** Each call seen through the builder's sequences *)

Lemma canMerge_spec h x y :
  canMerge h x y = true <->
  VisualObjectInstance.objectName x = VisualObjectInstance.objectName y /\
  VisualObjectInstance.containerIdx x = VisualObjectInstance.containerIdx y /\
  selectorEquals h (VisualObjectInstance.selector x)
                   (VisualObjectInstance.selector y) = true.
Proof.
  unfold canMerge. rewrite !andb_true_iff, !bool_decide_eq_true. tauto.
Qed.

Lemma canMerge_containerIdx_ne h x y :
  VisualObjectInstance.containerIdx x <> VisualObjectInstance.containerIdx y ->
  canMerge h x y = false.
Proof.
  intros Hne. apply not_true_is_false. rewrite canMerge_spec. tauto.
Qed.

Lemma canMerge_selector h h' x y :
  h_selector h' = h_selector h -> canMerge h' x y = canMerge h x y.
Proof. unfold canMerge, selectorEquals. by intros ->. Qed.

Lemma atMergeCheck_instance h b i :
  h_instance (atMergeCheck h b i) = h_instance (stamp h (Builder.containerIdx b) i).
Proof.
  unfold atMergeCheck, ensureInstances.
  by destruct (Builder.instances b), (Builder.containerIdx b).
Qed.

Lemma atMergeCheck_selector h b i :
  h_selector (atMergeCheck h b i) = h_selector h.
Proof.
  unfold atMergeCheck, ensureInstances.
  by destruct (Builder.instances b), (Builder.containerIdx b).
Qed.

Lemma atMergeCheck_instances h b i :
  h_instances (atMergeCheck h b i) (ensureInstances h b).2 = builderInstances h b.
Proof.
  unfold atMergeCheck, ensureInstances, builderInstances.
  destruct (Builder.instances b), (Builder.containerIdx b); cbn;
    by rewrite ?fn_lookup_insert.
Qed.

Lemma atMergeCheck_rest h b i :
  h_containers (atMergeCheck h b i) = h_containers h /\
  h_bag (atMergeCheck h b i) = h_bag h /\
  h_enum (atMergeCheck h b i) = h_enum h.
Proof.
  unfold atMergeCheck, ensureInstances.
  by destruct (Builder.instances b), (Builder.containerIdx b).
Qed.

(** [pushInstance] either appends, or merges into an instance that was
    already there and leaves the sequence as it was. *)
Lemma pushInstance_cases h b i m :
  let hs := stamp h (Builder.containerIdx b) i in
  let r := pushInstance h b i m in
  (builderInstances r.1 r.2 = builderInstances h b ++ [i] /\
   h_instance r.1 = h_instance hs /\ h_bag r.1 = h_bag h /\
   (m = false \/
    forall x, x ∈ builderInstances h b ->
              canMerge h (h_instance hs x) (h_instance hs i) = false)) \/
  (builderInstances r.1 r.2 = builderInstances h b /\ m = true /\
   exists x, x ∈ builderInstances h b /\
             canMerge h (h_instance hs x) (h_instance hs i) = true).
Proof.
  intros hs r. subst r. rewrite pushInstance_unfold. cbn zeta.
  pose proof (ensureInstances_cursor h b) as (_ & _ & Hi).
  rewrite atMergeCheck_instances.
  assert (Hcm : forall x,
    canMerge (atMergeCheck h b i) (h_instance (atMergeCheck h b i) x)
             (h_instance (atMergeCheck h b i) i) =
    canMerge h (h_instance hs x) (h_instance hs i)).
  { intros x. rewrite atMergeCheck_instance.
    apply canMerge_selector, atMergeCheck_selector. }
  destruct (if m then tryMerge _ _ i else None) as [h'|] eqn:E; cbn.
  - right. destruct m; [|done].
    pose proof (tryMerge_instances _ _ _ _ E) as Harr.
    apply tryMerge_some in E as (x & Hx & Hc).
    unfold builderInstances at 1. rewrite Hi. cbn.
    rewrite Harr, atMergeCheck_instances. rewrite Hcm in Hc. eauto.
  - left. unfold builderInstances at 1. rewrite Hi. cbn.
    rewrite fn_lookup_insert. split; [done|].
    split; [apply atMergeCheck_instance|].
    split; [apply atMergeCheck_rest|].
    destruct m; [right|by left]. intros x Hx. rewrite <- Hcm.
    by eapply tryMerge_none.
Qed.

Lemma pushInstance_frame h b i m :
  let r := pushInstance h b i m in
  Builder.containerIdx r.2 = Builder.containerIdx b /\
  Builder.containers r.2 = Builder.containers b /\
  is_Some (Builder.instances r.2) /\
  h_containers r.1 = h_containers h /\
  forall l,
    VisualObjectInstance.containerIdx (h_instance r.1 l) =
    VisualObjectInstance.containerIdx
      (h_instance (stamp h (Builder.containerIdx b) i) l).
Proof.
  intros r. subst r. rewrite pushInstance_unfold. cbn zeta.
  pose proof (ensureInstances_cursor h b) as (Hc & Hk & Hi).
  pose proof (atMergeCheck_rest h b i) as (Hcs & _ & _).
  destruct (if m then tryMerge _ _ i else None) as [h'|] eqn:E; cbn.
  - destruct m; [|done]. repeat split; try done.
    + unfold tryMerge in E. revert E.
      generalize (h_instances (atMergeCheck h b i) (ensureInstances h b).2).
      intros xs. induction xs as [|e xs IH]; cbn; [done|].
      destruct (canMerge _ _ _); [|exact IH].
      intros [= <-]. by rewrite !extend_containers.
    + intros l. rewrite (tryMerge_containerIdx _ _ _ _ _ E).
      by rewrite atMergeCheck_instance.
  - repeat split; try done. intros l. by rewrite atMergeCheck_instance.
Qed.

Lemma pushContainer_view h b c :
  let r := pushContainer h b c in
  builderContainers r.1 r.2 = builderContainers h b ++ [c] /\
  Builder.containerIdx r.2 =
    Some (Z.of_nat (length (builderContainers r.1 r.2)) - 1)%Z /\
  Builder.instances r.2 = Builder.instances b /\
  is_Some (Builder.containers r.2) /\
  h_instances r.1 = h_instances h /\
  h_instance r.1 = h_instance h /\
  h_bag r.1 = h_bag h.
Proof.
  unfold pushContainer, builderContainers.
  destruct (Builder.containers b) as [k|]; cbn; rewrite !fn_lookup_insert;
    repeat split; eauto.
Qed.

Lemma complete_view h b arr :
  Builder.instances b = Some arr ->
  let r := complete h b in
  r.2 = EnumObject (h_next h) /\
  h_enum r.1 (h_next h) = EnumerationObject.mk arr (Builder.containers b) /\
  h_instances r.1 = h_instances h /\
  h_containers r.1 = h_containers h /\
  h_instance r.1 = h_instance h /\
  h_bag r.1 = h_bag h.
Proof.
  intros Hi. unfold complete. rewrite Hi.
  destruct (Builder.containers b); cbn; rewrite !fn_lookup_insert; done.
Qed.

(** ** pushInstance, step by step *)

Lemma stamp_rest h cursor i :
  h_bag (stamp h cursor i) = h_bag h /\
  h_instances (stamp h cursor i) = h_instances h /\
  h_containers (stamp h cursor i) = h_containers h /\
  h_selector (stamp h cursor i) = h_selector h /\
  h_next (stamp h cursor i) = h_next h.
Proof. by destruct cursor. Qed.

Lemma stamp_getField h cursor i l p :
  getField p (h_instance (stamp h cursor i) l) = getField p (h_instance h l).
Proof.
  destruct cursor as [idx|]; cbn; [|done].
  unfold insert, fn_insert. case_decide; [subst|done]. by destruct p.
Qed.

Lemma extend_next_le h t s p : h_next h <= h_next (extend h t s p).
Proof.
  unfold extend. destruct (getField p (h_instance h s)); [|done].
  destruct (getField p (h_instance h t)); cbn; lia.
Qed.

Lemma extend_getField_other h t s p q l :
  q <> p ->
  getField q (h_instance (extend h t s p) l) = getField q (h_instance h l).
Proof.
  intros Hq. unfold extend. destruct (getField p (h_instance h s)); [|done].
  destruct (getField p (h_instance h t)); [done|]. cbn.
  unfold insert, fn_insert. case_decide; [subst|done]. by destruct p, q.
Qed.

(** [extend] does what folding asks for, when the source's bag is an
    object that exists. *)
Lemma extend_foldedInto h t s p :
  (forall sb, getField p (h_instance h s) = Some sb -> sb < h_next h) ->
  foldedInto h (extend h t s p) t s p.
Proof.
  intros Hwf. unfold foldedInto, extend.
  destruct (getField p (h_instance h s)) as [sb|] eqn:Hs; [|done].
  specialize (Hwf sb eq_refl).
  destruct (getField p (h_instance h t)) as [tb0|] eqn:Ht; cbn.
  - exists tb0. rewrite Ht. split; [done|]. split; [done|]. split.
    { intros key. rewrite fn_lookup_insert. apply extendBag_lookup. }
    split; [intros l Hl; by rewrite fn_lookup_insert_ne|]. done.
  - exists (h_next h). rewrite !fn_lookup_insert.
    rewrite (fn_lookup_insert_ne _ (h_next h) sb) by lia.
    split; [by destruct p|]. split; [done|]. split.
    { intros key. apply extendBag_lookup. }
    split; [intros l Hl; by rewrite !fn_lookup_insert_ne|].
    split; [intros l Hl; by rewrite fn_lookup_insert_ne|].
    split; [intros q Hq; by destruct p, q|]. by destruct p.
Qed.

(** C2.  [pushInstance] first stamps the incoming instance: with a cursor
    set, its [containerIdx] becomes the cursor and nothing else changes,
    and the stamp is still there when the call returns, merged or not.
    With merging on, the instances the builder has accumulated are tried
    in insertion order against the stamped instance; at the first one
    that can merge, the incoming [properties] and then the incoming
    [validValues] are folded into it and the accumulated sequence stays
    as it is.  With merging off, or when no accumulated instance can
    merge, the incoming instance goes to the end of the sequence and no
    instance and no bag changes besides the stamp. *)
Theorem C2_pushInstance (h : Heap) (b : Builder.t) (instance : loc)
    (mergeInstances : bool) :
  let hs := stamp h (Builder.containerIdx b) instance in
  let r := pushInstance h b instance mergeInstances in
  (forall l,
     h_instance hs l =
     match Builder.containerIdx b with
     | Some idx =>
         if bool_decide (l = instance)
         then VisualObjectInstance.mk
                (VisualObjectInstance.objectName (h_instance h l))
                (VisualObjectInstance.selector (h_instance h l))
                (Some idx)
                (VisualObjectInstance.properties (h_instance h l))
                (VisualObjectInstance.validValues (h_instance h l))
         else h_instance h l
     | None => h_instance h l
     end) /\
  (h_bag hs = h_bag h /\ h_instances hs = h_instances h /\
   h_next hs = h_next h) /\
  (forall idx, Builder.containerIdx b = Some idx ->
     VisualObjectInstance.containerIdx (h_instance r.1 instance) = Some idx) /\
  (mergeInstances = true ->
   (forall p sb, getField p (h_instance h instance) = Some sb -> sb < h_next h) ->
   forall pre existing post,
     builderInstances h b = pre ++ existing :: post ->
     (forall x, x ∈ pre ->
        canMerge h (h_instance hs x) (h_instance hs instance) = false) ->
     canMerge h (h_instance hs existing) (h_instance hs instance) = true ->
     builderInstances r.1 r.2 = builderInstances h b /\
     exists hmid,
       foldedInto hs hmid existing instance Properties /\
       foldedInto hmid r.1 existing instance ValidValues) /\
  (mergeInstances = false \/
   (forall x, x ∈ builderInstances h b ->
      canMerge h (h_instance hs x) (h_instance hs instance) = false) ->
   builderInstances r.1 r.2 = builderInstances h b ++ [instance] /\
   h_instance r.1 = h_instance hs /\ h_bag r.1 = h_bag h).
Proof.
  intros hs r.
  destruct (stamp_rest h (Builder.containerIdx b) instance)
    as (Hbag & Harrs & _ & Hsel & Hnext).
  fold hs in Hbag, Harrs, Hsel, Hnext.
  split; [|split; [done|split; [|split]]].
  - intros l. subst hs. destruct (Builder.containerIdx b) as [idx|]; cbn; [|done].
    unfold insert, fn_insert. case_bool_decide; subst.
    + by rewrite decide_True.
    + by rewrite decide_False.
  - intros idx Hidx.
    destruct (pushInstance_frame h b instance mergeInstances) as (_ & _ & _ & _ & Hl).
    fold r in Hl. rewrite Hl, stamp_containerIdx, Hidx.
    by rewrite bool_decide_eq_true_2.
  - intros -> Hwf pre existing post Hacc Hpre Hex.
    destruct (Builder.instances b) as [arr|] eqn:Harr;
      [|unfold builderInstances in Hacc; rewrite Harr in Hacc;
        by destruct pre].
    assert (Hr : r = (extend (extend hs existing instance Properties)
                             existing instance ValidValues, b)).
    { subst r. unfold pushInstance, ensureInstances. rewrite Harr. cbn zeta.
      fold hs. rewrite Harrs.
      unfold builderInstances in Hacc. rewrite Harr in Hacc. cbn in Hacc.
      rewrite Hacc, (tryMerge_first hs pre existing post instance); [done| |].
      - intros x Hx. rewrite (canMerge_selector h) by done. by apply Hpre.
      - by rewrite (canMerge_selector h). }
    rewrite Hr. cbn [fst snd]. split.
    + unfold builderInstances. rewrite Harr. cbn.
      by rewrite !extend_instances, Harrs.
    + exists (extend hs existing instance Properties). split.
      * apply extend_foldedInto. intros sb Hsb.
        rewrite Hnext. apply (Hwf Properties sb).
        by rewrite <- (stamp_getField h (Builder.containerIdx b) instance).
      * apply extend_foldedInto. intros sb Hsb.
        rewrite extend_getField_other in Hsb by done.
        pose proof (extend_next_le hs existing instance Properties) as Hle.
        assert (sb < h_next h); [|lia]. apply (Hwf ValidValues sb).
        by rewrite <- (stamp_getField h (Builder.containerIdx b) instance).
  - intros Hno.
    destruct (pushInstance_cases h b instance mergeInstances)
      as [(Ha & Hi & Hb & _)|(_ & -> & x & Hx & Hc)].
    + by fold r in Ha, Hi, Hb.
    + destruct Hno as [?|Hno]; [done|]. fold hs in Hc.
      by rewrite (Hno x Hx) in Hc.
Qed.

(** The state after A of [first_writer_wins_example] was pushed: pushing B
    next merges into A when merging is on and appends when it is off. *)
Lemma C2_pushInstance_witness :
  let s := run (twoInstances {[ "p" := JsNumber 1 ]}
                             {[ "p" := JsNumber 2; "q" := JsNumber 3 ]},
                newBuilder) [PushInstance 0 true] in
  (builderInstances (pushInstance s.1 s.2 1 true).1
                    (pushInstance s.1 s.2 1 true).2 = [0] /\
   exists hmid,
     foldedInto (stamp s.1 (Builder.containerIdx s.2) 1) hmid 0 1 Properties /\
     foldedInto hmid (pushInstance s.1 s.2 1 true).1 0 1 ValidValues) /\
  builderInstances (pushInstance s.1 s.2 1 false).1
                   (pushInstance s.1 s.2 1 false).2 = [0; 1].
Proof.
  intros s. split.
  - destruct (C2_pushInstance s.1 s.2 1 true) as (_ & _ & _ & Hm & _).
    apply (Hm eq_refl) with (pre := []) (post := []).
    + intros p sb. destruct p; vm_compute; intros [= <-]; lia.
    + reflexivity.
    + intros x Hx. by apply elem_of_nil in Hx.
    + reflexivity.
  - destruct (C2_pushInstance s.1 s.2 1 false) as (_ & _ & _ & _ & Ha).
    destruct (Ha (or_introl eq_refl)) as [H _]. exact H.
Defined.

(** ** Containers and the cursor *)

(** C4.  [pushContainer] appends the container and points the cursor at
    it, the last index of the container sequence; an instance pushed while
    the cursor is set carries that index; [popContainer] unsets the cursor
    whatever was pushed before, and instances pushed then keep the
    [containerIdx] they came with.  For two distinct instances, the second
    without a [containerIdx] of its own,
    [pushContainer(C1); pushInstance(I1); popContainer(); pushInstance(I2)]
    leaves [I1.containerIdx = 0] and [I2.containerIdx] unset. *)
Theorem C4_container_stamping :
  (forall h b c,
     let r := pushContainer h b c in
     builderContainers r.1 r.2 = builderContainers h b ++ [c] /\
     Builder.containerIdx r.2 =
       Some (Z.of_nat (length (builderContainers r.1 r.2)) - 1)%Z /\
     builderContainers r.1 r.2 !! length (builderContainers h b) = Some c /\
     Builder.containerIdx r.2 =
       Some (Z.of_nat (length (builderContainers h b)))) /\
  (forall h b i m idx,
     Builder.containerIdx b = Some idx ->
     VisualObjectInstance.containerIdx (h_instance (pushInstance h b i m).1 i)
     = Some idx) /\
  (forall h b,
     (popContainer h b).1 = h /\
     Builder.containerIdx (popContainer h b).2 = None) /\
  (forall h b i m l,
     Builder.containerIdx b = None ->
     VisualObjectInstance.containerIdx (h_instance (pushInstance h b i m).1 l)
     = VisualObjectInstance.containerIdx (h_instance h l)) /\
  (forall h c1 i1 i2 m1 m2,
     i1 <> i2 ->
     VisualObjectInstance.containerIdx (h_instance h i2) = None ->
     let s := run (h, newBuilder)
                  [PushContainer c1; PushInstance i1 m1;
                   PopContainer; PushInstance i2 m2] in
     VisualObjectInstance.containerIdx (h_instance s.1 i1) = Some 0%Z /\
     VisualObjectInstance.containerIdx (h_instance s.1 i2) = None /\
     builderInstances s.1 s.2 = [i1; i2]).
Proof.
  split; [|split; [|split; [|split]]].
  - intros h b c r.
    destruct (pushContainer_view h b c) as (Hv & Hc & _). fold r in Hv, Hc.
    split; [done|]. split; [done|]. split.
    + rewrite Hv. by rewrite lookup_app_r, Nat.sub_diag.
    + rewrite Hc, Hv, length_app. cbn. f_equal. lia.
  - intros h b i m idx Hidx.
    destruct (pushInstance_frame h b i m) as (_ & _ & _ & _ & Hl).
    rewrite Hl, stamp_containerIdx, Hidx. by rewrite bool_decide_eq_true_2.
  - done.
  - intros h b i m l Hnone.
    destruct (pushInstance_frame h b i m) as (_ & _ & _ & _ & Hl).
    by rewrite Hl, Hnone.
  - intros h c1 i1 i2 m1 m2 Hne Hi2 s. subst s. unfold run. cbn [foldl call fst snd].
    destruct (pushContainer_view h newBuilder c1) as (Hv1 & Hc1 & Hb1 & _ & _ & Hinst1 & _).
    destruct (pushContainer h newBuilder c1) as [h1 b1]. cbn [fst snd] in *.
    rewrite Hv1 in Hc1. cbn in Hc1.
    destruct (pushInstance_frame h1 b1 i1 m1) as (Hc2 & _ & _ & _ & Hl2).
    destruct (pushInstance_cases h1 b1 i1 m1) as [(Ha2 & _)|(_ & _ & x & Hx & _)];
      cycle 1.
    { unfold builderInstances in Hx. rewrite Hb1 in Hx. by apply elem_of_nil in Hx. }
    unfold builderInstances at 2 in Ha2. rewrite Hb1 in Ha2. cbn in Ha2.
    destruct (pushInstance h1 b1 i1 m1) as [h2 b2]. cbn [fst snd] in *.
    unfold popContainer. cbn [fst snd].
    set (b3 := Builder.mk _ _ None).
    destruct (pushInstance_frame h2 b3 i2 m2) as (_ & _ & _ & _ & Hl4).
    assert (H1 : VisualObjectInstance.containerIdx (h_instance h2 i1) = Some 0%Z).
    { rewrite Hl2, stamp_containerIdx, Hc1. by rewrite bool_decide_eq_true_2. }
    assert (H2 : VisualObjectInstance.containerIdx (h_instance h2 i2) = None).
    { rewrite Hl2, stamp_containerIdx, Hc1.
      rewrite bool_decide_eq_false_2 by done. by rewrite Hinst1. }
    destruct (pushInstance_cases h2 b3 i2 m2) as [(Ha4 & _)|(_ & _ & x & Hx & Hcm)].
    + destruct (pushInstance h2 b3 i2 m2) as [h4 b4]. cbn [fst snd] in *.
      rewrite !Hl4. cbn. split; [done|]. split; [done|].
      rewrite Ha4. unfold builderInstances, b3. cbn.
      unfold builderInstances in Ha2. by rewrite Ha2.
    + exfalso. cbn in Hx, Hcm. unfold builderInstances in Hx, Ha2. cbn in Hx.
      rewrite Ha2 in Hx. apply list_elem_of_singleton in Hx. subst x.
      rewrite canMerge_containerIdx_ne in Hcm; [done|]. by rewrite H1, H2.
Qed.

Lemma C4_container_stamping_witness :
  let s := run (blankHeap 3, newBuilder)
               [PushContainer 2; PushInstance 0 true;
                PopContainer; PushInstance 1 true] in
  VisualObjectInstance.containerIdx (h_instance s.1 0) = Some 0%Z /\
  VisualObjectInstance.containerIdx (h_instance s.1 1) = None /\
  builderInstances s.1 s.2 = [0; 1].
Proof.
  destruct C4_container_stamping as (_ & _ & _ & _ & H).
  apply (H (blankHeap 3) 2 0 1 true true); [lia | reflexivity].
Defined.

(** ** The merge predicate *)

(** An instance pushed under the cursor [idx] is appended when every
    accumulated instance is another object with another [containerIdx]. *)
Lemma pushInstance_other_container h b i m idx :
  Builder.containerIdx b = Some idx ->
  (forall x, x ∈ builderInstances h b ->
     x <> i /\ VisualObjectInstance.containerIdx (h_instance h x) <> Some idx) ->
  let r := pushInstance h b i m in
  builderInstances r.1 r.2 = builderInstances h b ++ [i].
Proof.
  intros Hidx Hall r.
  destruct (pushInstance_cases h b i m) as [(Ha & _)|(_ & _ & x & Hx & Hcm)];
    [done|exfalso].
  destruct (Hall x Hx) as [Hxi Hxc].
  rewrite canMerge_containerIdx_ne in Hcm; [done|].
  rewrite !stamp_containerIdx, Hidx.
  rewrite bool_decide_eq_false_2, bool_decide_eq_true_2 by done. done.
Qed.

(** C3.  Two instances can merge exactly when their [objectName]s are
    equal, their [containerIdx]s are equal (both unset included) and their
    selectors are equal by [selectorEquals].  So an instance pushed under
    one container never merges with the instances accumulated under other
    containers, whatever their names and selectors: two distinct instances
    pushed under two containers are both in the result of [complete]. *)
Theorem C3_canMerge :
  (forall h x y,
     canMerge h x y = true <->
     VisualObjectInstance.objectName x = VisualObjectInstance.objectName y /\
     VisualObjectInstance.containerIdx x = VisualObjectInstance.containerIdx y /\
     selectorEquals h (VisualObjectInstance.selector x)
                      (VisualObjectInstance.selector y) = true) /\
  (forall h b i m idx,
     Builder.containerIdx b = Some idx ->
     (forall x, x ∈ builderInstances h b ->
        x <> i /\ VisualObjectInstance.containerIdx (h_instance h x) <> Some idx) ->
     let r := pushInstance h b i m in
     builderInstances r.1 r.2 = builderInstances h b ++ [i]) /\
  (forall h c1 c2 i1 i2 m1 m2 (pop : bool),
     i1 <> i2 ->
     let s := run (h, newBuilder)
                  ([PushContainer c1; PushInstance i1 m1]
                   ++ (if pop then [PopContainer] else [])
                   ++ [PushContainer c2; PushInstance i2 m2]) in
     let r := complete s.1 s.2 in
     exists o,
       r.2 = EnumObject o /\
       h_instances r.1 (EnumerationObject.instances (h_enum r.1 o)) = [i1; i2] /\
       VisualObjectInstance.containerIdx (h_instance r.1 i1) = Some 0%Z /\
       VisualObjectInstance.containerIdx (h_instance r.1 i2) = Some 1%Z).
Proof.
  split; [exact canMerge_spec|]. split; [exact pushInstance_other_container|].
  intros h c1 c2 i1 i2 m1 m2 pop Hne s r.
  assert (Hs : s = run (h, newBuilder)
                 [PushContainer c1; PushInstance i1 m1;
                  PushContainer c2; PushInstance i2 m2]).
  { subst s. by destruct pop. }
  clearbody s. subst s. subst r. unfold run. cbn [foldl call fst snd].
  destruct (pushContainer_view h newBuilder c1)
    as (Hv1 & Hc1 & Hb1 & _ & _ & Hinst1 & _).
  destruct (pushContainer h newBuilder c1) as [h1 b1]. cbn [fst snd] in *.
  rewrite Hv1 in Hc1. cbn in Hc1.
  destruct (pushInstance_frame h1 b1 i1 m1) as (_ & Hk2 & _ & Hks2 & Hl2).
  pose proof (pushInstance_other_container h1 b1 i1 m1 0%Z Hc1) as Ha2.
  unfold builderInstances at 1 3 in Ha2. rewrite Hb1 in Ha2. cbn in Ha2.
  specialize (Ha2 ltac:(intros x Hx; by apply elem_of_nil in Hx)).
  destruct (pushInstance h1 b1 i1 m1) as [h2 b2]. cbn [fst snd] in *.
  destruct (pushContainer_view h2 b2 c2)
    as (Hv3 & Hc3 & Hb3 & _ & Harr3 & Hinst3 & _).
  assert (Hcs2 : builderContainers h2 b2 = [c1]).
  { unfold builderContainers in *. by rewrite Hk2, Hks2. }
  destruct (pushContainer h2 b2 c2) as [h3 b3]. cbn [fst snd] in *.
  rewrite Hv3, Hcs2 in Hc3. cbn in Hc3.
  assert (Hacc3 : builderInstances h3 b3 = [i1]).
  { unfold builderInstances in *. by rewrite Hb3, Harr3. }
  assert (H1 : VisualObjectInstance.containerIdx (h_instance h3 i1) = Some 0%Z).
  { rewrite Hinst3, Hl2, stamp_containerIdx, Hc1. by rewrite bool_decide_eq_true_2. }
  destruct (pushInstance_frame h3 b3 i2 m2) as (_ & _ & [arr Harr] & _ & Hl4).
  pose proof (pushInstance_other_container h3 b3 i2 m2 1%Z Hc3) as Ha4.
  rewrite Hacc3 in Ha4.
  specialize (Ha4 ltac:(intros x ->%list_elem_of_singleton; by rewrite H1)).
  destruct (pushInstance h3 b3 i2 m2) as [h4 b4]. cbn [fst snd] in *.
  destruct (complete_view h4 b4 arr Harr) as (Hr & He & Hi & _ & Hinst & _).
  exists (h_next h4). split; [done|].
  rewrite He, Hi, Hinst. cbn. unfold builderInstances in Ha4.
  rewrite Harr in Ha4. cbn in Ha4. split; [done|].
  rewrite !Hl4, !stamp_containerIdx, Hc3.
  rewrite bool_decide_eq_false_2, bool_decide_eq_true_2 by done. done.
Qed.

Lemma C3_canMerge_witness :
  let s := run (blankHeap 4, newBuilder)
               [PushContainer 2; PushInstance 0 true;
                PushContainer 3; PushInstance 1 true] in
  builderInstances s.1 s.2 = [0; 1] /\
  exists o,
    (complete s.1 s.2).2 = EnumObject o /\
    h_instances (complete s.1 s.2).1
      (EnumerationObject.instances (h_enum (complete s.1 s.2).1 o)) = [0; 1] /\
    VisualObjectInstance.containerIdx (h_instance (complete s.1 s.2).1 0)
      = Some 0%Z /\
    VisualObjectInstance.containerIdx (h_instance (complete s.1 s.2).1 1)
      = Some 1%Z.
Proof.
  destruct C3_canMerge as (_ & Hpush & Hrun). split.
  - set (s1 := run (blankHeap 4, newBuilder)
                   [PushContainer 2; PushInstance 0 true; PushContainer 3]).
    apply (Hpush s1.1 s1.2 1 true 1%Z); [reflexivity|].
    intros x Hx. vm_compute in Hx. apply list_elem_of_singleton in Hx. subst x.
    split; [lia|]. vm_compute. discriminate.
  - apply (Hrun (blankHeap 4) 2 3 0 1 true true false). lia.
Defined.

(** ** Runs: which arrays exist, and what they hold *)

Lemma call_instances_allocated s c :
  is_Some (Builder.instances (call s c).2) <->
  is_Some (Builder.instances s.2) \/ isPushInstance c = true.
Proof.
  destruct s as [h b], c as [i m|k|]; cbn.
  - destruct (pushInstance_frame h b i m) as (_ & _ & Hi & _). tauto.
  - destruct (pushContainer_view h b k) as (_ & _ & -> & _).
    intuition discriminate.
  - intuition discriminate.
Qed.

Lemma call_containers_allocated s c :
  is_Some (Builder.containers (call s c).2) <->
  is_Some (Builder.containers s.2) \/ isPushContainer c = true.
Proof.
  destruct s as [h b], c as [i m|k|]; cbn.
  - destruct (pushInstance_frame h b i m) as (_ & -> & _).
    intuition discriminate.
  - destruct (pushContainer_view h b k) as (_ & _ & _ & Hk & _). tauto.
  - intuition discriminate.
Qed.

Lemma run_instances_allocated calls s :
  is_Some (Builder.instances (run s calls).2) <->
  is_Some (Builder.instances s.2) \/ existsb isPushInstance calls = true.
Proof.
  revert s. induction calls as [|c calls IH]; intros s; cbn.
  - intuition discriminate.
  - fold (run (call s c) calls). rewrite IH, call_instances_allocated.
    rewrite orb_true_iff. tauto.
Qed.

Lemma run_containers_allocated calls s :
  is_Some (Builder.containers (run s calls).2) <->
  is_Some (Builder.containers s.2) \/ existsb isPushContainer calls = true.
Proof.
  revert s. induction calls as [|c calls IH]; intros s; cbn.
  - intuition discriminate.
  - fold (run (call s c) calls). rewrite IH, call_containers_allocated.
    rewrite orb_true_iff. tauto.
Qed.

(** After [pushInstance] the sequence holds at least one instance. *)
Lemma pushInstance_nonempty h b i m :
  builderInstances (pushInstance h b i m).1 (pushInstance h b i m).2 <> [].
Proof.
  destruct (pushInstance_cases h b i m) as [(Ha & _)|(Ha & _ & x & Hx & _)];
    rewrite Ha.
  - by destruct (builderInstances h b).
  - intros Hnil. rewrite Hnil in Hx. by apply elem_of_nil in Hx.
Qed.

(** No call takes an instance out of the sequence. *)
Lemma call_instances_prefix s c :
  builderInstances s.1 s.2 `prefix_of` builderInstances (call s c).1 (call s c).2.
Proof.
  destruct s as [h b], c as [i m|k|]; cbn.
  - destruct (pushInstance_cases h b i m) as [(Ha & _)|(Ha & _)]; rewrite Ha.
    + by apply prefix_app_r.
    + done.
  - destruct (pushContainer_view h b k) as (_ & _ & Hi & _ & Harr & _).
    unfold builderInstances. by rewrite Hi, Harr.
  - done.
Qed.

Lemma call_nonempty s c :
  (is_Some (Builder.instances s.2) -> builderInstances s.1 s.2 <> []) ->
  is_Some (Builder.instances (call s c).2) ->
  builderInstances (call s c).1 (call s c).2 <> [].
Proof.
  intros Hinv Hsome.
  destruct c as [i m|k|].
  - apply pushInstance_nonempty.
  - apply call_instances_allocated in Hsome as [Hsome|?]; [|done].
    specialize (Hinv Hsome). intros Hnil.
    pose proof (call_instances_prefix s (PushContainer k)) as Hp.
    rewrite Hnil in Hp. by apply prefix_nil_inv in Hp.
  - apply call_instances_allocated in Hsome as [Hsome|?]; [|done].
    by apply Hinv.
Qed.

Lemma run_nonempty calls s :
  (is_Some (Builder.instances s.2) -> builderInstances s.1 s.2 <> []) ->
  is_Some (Builder.instances (run s calls).2) ->
  builderInstances (run s calls).1 (run s calls).2 <> [].
Proof.
  revert s. induction calls as [|c calls IH]; intros s Hinv; cbn; [done|].
  fold (run (call s c) calls). apply IH. by apply call_nonempty.
Qed.

(** ** complete *)

(** C5.  After any run of calls on a new builder: when no instance was
    pushed, however many containers were, [complete] gives [undefined] and
    leaves the heap alone, and [undefined] is not an enumeration object,
    not even one with no instances; when an instance was pushed it gives a
    new object whose [instances] is the builder's own array and whose
    [containers] is the builder's container array, present exactly when a
    container was pushed. *)
Theorem C5_complete (h : Heap) (calls : list Call) :
  let s := run (h, newBuilder) calls in
  let r := complete s.1 s.2 in
  (existsb isPushInstance calls = false -> r = (s.1, EnumUndefined)) /\
  (existsb isPushInstance calls = true ->
   exists arr o,
     Builder.instances s.2 = Some arr /\
     r.2 = EnumObject o /\
     EnumerationObject.instances (h_enum r.1 o) = arr /\
     h_instances r.1 arr = h_instances s.1 arr /\
     EnumerationObject.containers (h_enum r.1 o) = Builder.containers s.2 /\
     (forall k, Builder.containers s.2 = Some k ->
                h_containers r.1 k = h_containers s.1 k) /\
     (is_Some (EnumerationObject.containers (h_enum r.1 o)) <->
      existsb isPushContainer calls = true)) /\
  (forall h' o, EnumUndefined <> EnumObject o /\
                enumView h' EnumUndefined = None /\
                is_Some (enumView h' (EnumObject o))).
Proof.
  intros s r.
  pose proof (run_instances_allocated calls (h, newBuilder)) as Hi.
  pose proof (run_containers_allocated calls (h, newBuilder)) as Hk.
  fold s in Hi, Hk. cbn in Hi, Hk.
  split; [|split].
  - intros Hno. subst r. unfold complete.
    destruct (Builder.instances s.2) as [arr|] eqn:E; [|done].
    exfalso. destruct Hi as [Hi _].
    destruct (Hi ltac:(by eexists)) as [[? [=]]|?]. congruence.
  - intros Hyes. destruct Hi as [_ Hi].
    destruct (Hi (or_intror Hyes)) as [arr Harr].
    destruct (complete_view s.1 s.2 arr Harr) as (Hr & He & Harrs & Hcs & _).
    fold r in Hr, He, Harrs, Hcs.
    exists arr, (h_next s.1). rewrite He, Harrs, Hcs. cbn.
    repeat split; try done.
    + intros Hsome. apply Hk in Hsome as [[? [=]]|?]. done.
    + intros Hpc. apply Hk. by right.
  - intros h' o. cbn. split; [done|]. split; [done|]. by eexists.
Qed.

Lemma C5_complete_witness :
  complete (run (blankHeap 2, newBuilder) [PushContainer 0; PopContainer]).1
           (run (blankHeap 2, newBuilder) [PushContainer 0; PopContainer]).2
  = ((run (blankHeap 2, newBuilder) [PushContainer 0; PopContainer]).1,
     EnumUndefined) /\
  exists arr o,
    (complete (run (blankHeap 2, newBuilder) [PushInstance 0 true]).1
              (run (blankHeap 2, newBuilder) [PushInstance 0 true]).2).2
    = EnumObject o /\
    Builder.instances (run (blankHeap 2, newBuilder) [PushInstance 0 true]).2
    = Some arr.
Proof.
  split.
  - apply (C5_complete (blankHeap 2) [PushContainer 0; PopContainer]).
    reflexivity.
  - destruct (C5_complete (blankHeap 2) [PushInstance 0 true]) as (_ & H & _).
    destruct (H eq_refl) as (arr & o & Ha & Ho & _).
    exists arr, o. split; [exact Ho|exact Ha].
Defined.

(** ** The sequence is never empty *)

(** C10.  The first [pushInstance] on a builder appends; no call removes
    an instance from the sequence; and after any run of calls on a new
    builder, [complete] gives [undefined] or an object whose instance
    array holds at least one instance. *)
Theorem C10_instances_never_empty :
  (forall h b i m,
     Builder.instances b = None ->
     builderInstances (pushInstance h b i m).1 (pushInstance h b i m).2 = [i]) /\
  (forall s c,
     builderInstances s.1 s.2
       `prefix_of` builderInstances (call s c).1 (call s c).2) /\
  (forall h calls,
     let s := run (h, newBuilder) calls in
     let r := complete s.1 s.2 in
     r.2 = EnumUndefined \/
     exists o, r.2 = EnumObject o /\
       h_instances r.1 (EnumerationObject.instances (h_enum r.1 o)) <> []).
Proof.
  split; [|split; [exact call_instances_prefix|]].
  - intros h b i m Hnone.
    destruct (pushInstance_cases h b i m) as [(Ha & _)|(_ & _ & x & Hx & _)].
    + rewrite Ha. unfold builderInstances. by rewrite Hnone.
    + unfold builderInstances in Hx. rewrite Hnone in Hx.
      by apply elem_of_nil in Hx.
  - intros h calls s r.
    destruct (Builder.instances s.2) as [arr|] eqn:E.
    + right. destruct (complete_view s.1 s.2 arr E) as (Hr & He & Harrs & _).
      fold r in Hr, He, Harrs. exists (h_next s.1). split; [done|].
      rewrite He, Harrs. cbn.
      pose proof (run_nonempty calls (h, newBuilder)) as Hne.
      fold s in Hne. unfold builderInstances in Hne. rewrite E in Hne.
      apply Hne; [by intros [? [=]]|by eexists].
    + left. subst r. unfold complete. by rewrite E.
Qed.

Lemma C10_instances_never_empty_witness :
  builderInstances (pushInstance (blankHeap 1) newBuilder 0 true).1
                   (pushInstance (blankHeap 1) newBuilder 0 true).2 = [0].
Proof.
  destruct C10_instances_never_empty as (H & _).
  apply (H (blankHeap 1) newBuilder 0 true). reflexivity.
Defined.

(** ** normalize *)

(** C9.  A bare list is wrapped in a new object [{ instances: x }] without
    containers, so it normalises to the same content as an object without
    containers that holds the same instances; an enumeration object comes
    back as the same object, the heap untouched; [undefined] and [null]
    come back as they are. *)
Theorem C9_normalize (h : Heap) :
  (forall a,
     let r := normalize h (EnumArray a) in
     exists o,
       r.2 = EnumObject o /\
       h_enum r.1 o = EnumerationObject.mk a None /\
       h_instances r.1 = h_instances h /\
       enumView r.1 r.2 = Some (h_instances h a, None)) /\
  (forall a o,
     h_instances h (EnumerationObject.instances (h_enum h o)) = h_instances h a ->
     EnumerationObject.containers (h_enum h o) = None ->
     enumView (normalize h (EnumArray a)).1 (normalize h (EnumArray a)).2 =
     enumView (normalize h (EnumObject o)).1 (normalize h (EnumObject o)).2) /\
  (forall o, normalize h (EnumObject o) = (h, EnumObject o)) /\
  normalize h EnumUndefined = (h, EnumUndefined) /\
  normalize h EnumNull = (h, EnumNull).
Proof.
  split; [|split; [|done]].
  - intros a r. exists (h_next h). subst r. cbn.
    by rewrite fn_lookup_insert.
  - intros a o Ha Hc. cbn. rewrite fn_lookup_insert. cbn. by rewrite Ha, Hc.
Qed.

Lemma C9_normalize_witness :
  let h := setEnum twoResults 0 (EnumerationObject.mk 2 None) in
  enumView (normalize h (EnumArray 2)).1 (normalize h (EnumArray 2)).2 =
  enumView (normalize h (EnumObject 0)).1 (normalize h (EnumObject 0)).2.
Proof.
  intros h. destruct (C9_normalize h) as (_ & H & _).
  apply (H 2 0); reflexivity.
Defined.

(** ** merge *)

(** C6.  Merging an enumeration object with [undefined] or [null], on
    either side, gives back that very object and leaves the heap alone;
    merging two empty values gives an empty value. *)
Theorem C6_merge_identity (fuel : nat) (h : Heap) :
  (forall n o,
     isResult n = false ->
     merge fuel h n (EnumObject o) = Some (h, EnumObject o) /\
     merge fuel h (EnumObject o) n = Some (h, EnumObject o)) /\
  (forall n1 n2,
     isResult n1 = false -> isResult n2 = false ->
     exists n, merge fuel h n1 n2 = Some (h, n) /\ isResult n = false) /\
  merge fuel h EnumUndefined EnumUndefined = Some (h, EnumUndefined).
Proof.
  split; [|split; [|done]].
  - intros n o Hn. by destruct n.
  - intros n1 n2 H1 H2. destruct n1, n2; try done; cbn; eauto.
Qed.

Lemma C6_merge_identity_witness :
  merge 0 twoResults EnumUndefined (EnumObject 1) = Some (twoResults, EnumObject 1) /\
  merge 0 twoResults (EnumObject 0) EnumNull = Some (twoResults, EnumObject 0).
Proof.
  destruct (C6_merge_identity 0 twoResults) as (H & _). split.
  - apply (H EnumUndefined 1). reflexivity.
  - apply (H EnumNull 0). reflexivity.
Defined.

Lemma rebaseBy_0 offset i : rebaseBy 0 offset i = i.
Proof.
  destruct i as [n s [idx|] p v]; unfold rebaseBy, withContainerIdx; cbn; [|done].
  do 2 f_equal. lia.
Qed.

Lemma rebaseBy_rebase n offset i :
  rebaseBy n offset (rebase offset i) = rebaseBy (S n) offset i.
Proof.
  destruct i as [nm s [idx|] p v]; unfold rebaseBy, rebase, withContainerIdx; cbn;
    [|done].
  do 2 f_equal. lia.
Qed.

(** The loop of [merge], from position [length pre] of y's array on, when
    that array is not the one x collects into. *)
Lemma mergeLoop_spec xo ya offset rest :
  forall pre h fuel,
    EnumerationObject.instances (h_enum h xo) <> ya ->
    h_instances h ya = pre ++ rest ->
    length rest < fuel ->
    exists h',
      mergeLoop fuel h xo ya offset (length pre) = Some h' /\
      h_instances h' (EnumerationObject.instances (h_enum h xo)) =
        h_instances h (EnumerationObject.instances (h_enum h xo)) ++ rest /\
      (forall l, l <> EnumerationObject.instances (h_enum h xo) ->
                 h_instances h' l = h_instances h l) /\
      (forall i, h_instance h' i =
                 rebaseBy (count_occ Nat.eq_dec rest i) offset (h_instance h i)) /\
      h_enum h' = h_enum h /\ h_containers h' = h_containers h /\
      h_bag h' = h_bag h /\ h_selector h' = h_selector h /\ h_next h' = h_next h.
Proof.
  induction rest as [|y rest IH]; intros pre h fuel Hne Hya Hfuel.
  - destruct fuel as [|fuel]; [cbn in Hfuel; lia|]. cbn.
    rewrite Hya, app_nil_r, lookup_ge_None_2 by done.
    exists h. rewrite app_nil_r. repeat split; try done.
    intros i. by rewrite rebaseBy_0.
  - destruct fuel as [|fuel]; [cbn in Hfuel; lia|]. cbn [mergeLoop].
    rewrite Hya, list_lookup_middle by done.
    set (xa := EnumerationObject.instances (h_enum h xo)) in *.
    set (h1 := setInstances h xa (h_instances h xa ++ [y])).
    set (h2 := setInstance h1 y (rebase offset (h_instance h1 y))).
    destruct (IH (pre ++ [y]) h2 fuel) as (h' & Hrun & Hxa & Hother & Hinst & Hrest).
    + done.
    + cbn. rewrite fn_lookup_insert_ne by done. by rewrite Hya, <- app_assoc.
    + cbn in Hfuel. lia.
    + exists h'. rewrite length_app, Nat.add_1_r in Hrun. split; [exact Hrun|].
      change (EnumerationObject.instances (h_enum h2 xo)) with xa in *.
      split; [|split; [|split]].
      * rewrite Hxa. cbn. by rewrite fn_lookup_insert, <- app_assoc.
      * intros l Hl. rewrite Hother by done. cbn. by rewrite fn_lookup_insert_ne.
      * intros i. rewrite Hinst. cbn [h_instance h2 h1 setInstance setInstances].
        destruct (decide (y = i)) as [->|Hyi].
        -- rewrite fn_lookup_insert, count_occ_cons_eq by done.
           apply rebaseBy_rebase.
        -- rewrite fn_lookup_insert_ne, count_occ_cons_neq by done. done.
      * exact Hrest.
Qed.

(** When y's array is the array x collects into, every step makes it one
    longer and the loop does not come to its end, whatever the fuel. *)
Lemma mergeLoop_same_array xo offset fuel :
  forall h index,
    index < length (h_instances h (EnumerationObject.instances (h_enum h xo))) ->
    mergeLoop fuel h xo (EnumerationObject.instances (h_enum h xo)) offset index
    = None.
Proof.
  induction fuel as [|fuel IH]; intros h index Hlt; [done|]. cbn [mergeLoop].
  destruct (lookup_lt_is_Some_2 _ _ Hlt) as [y Hy]. rewrite Hy.
  set (xa := EnumerationObject.instances (h_enum h xo)) in *.
  set (h2 := setInstance _ _ _).
  change xa with (EnumerationObject.instances (h_enum h2 xo)).
  apply IH. subst h2. cbn. fold xa. rewrite fn_lookup_insert, length_app. cbn. lia.
Qed.

(** Merging an enumeration object that holds an instance with itself does
    not return: the model runs out of fuel however much it is given. *)
Lemma merge_same_object_no_result fuel h o :
  h_instances h (EnumerationObject.instances (h_enum h o)) <> [] ->
  merge fuel h (EnumObject o) (EnumObject o) = None.
Proof.
  intros Hne. unfold merge. cbn.
  rewrite mergeLoop_same_array; [done|].
  destruct (h_instances h _); [done|cbn; lia].
Qed.

(** C7.  When both inputs normalise to objects that do not share one
    instance array, [merge] returns x's object, and: x's instance array
    holds what it held followed by y's instances in order; every append of
    an instance that has a [containerIdx] adds to it the number of
    containers of x (0 when x has none), so an instance that y holds once
    is rebased by exactly that number; and x's containers are followed by
    y's containers. *)
Theorem C7_merge_rebase (h : Heap) (x y : Enumeration) (h1 h2 : Heap)
    (xo yo : loc) (fuel : nat) :
  normalize h x = (h1, EnumObject xo) ->
  normalize h1 y = (h2, EnumObject yo) ->
  let xa := EnumerationObject.instances (h_enum h2 xo) in
  let ya := EnumerationObject.instances (h_enum h2 yo) in
  let offset := Z.of_nat (length (enumContainers h2 xo)) in
  xa <> ya ->
  length (h_instances h2 ya) < fuel ->
  exists h',
    merge fuel h x y = Some (h', EnumObject xo) /\
    EnumerationObject.instances (h_enum h' xo) = xa /\
    h_instances h' xa = h_instances h2 xa ++ h_instances h2 ya /\
    (forall i,
       h_instance h' i =
       rebaseBy (count_occ Nat.eq_dec (h_instances h2 ya) i) offset
                (h_instance h2 i)) /\
    (NoDup (h_instances h2 ya) ->
     forall i, i ∈ h_instances h2 ya ->
       VisualObjectInstance.containerIdx (h_instance h' i) =
       (fun idx => (idx + offset)%Z)
         <$> VisualObjectInstance.containerIdx (h_instance h2 i)) /\
    enumContainers h' xo = enumContainers h2 xo ++ enumContainers h2 yo.
Proof.
  intros Hx Hy xa ya offset Hne Hfuel.
  destruct (mergeLoop_spec xo ya offset (h_instances h2 ya) [] h2 fuel)
    as (h3 & Hrun & Hxa & _ & Hinst & Henum & Hcs & _); [done..|].
  cbn [length] in Hrun. fold xa in Hxa.
  unfold merge. rewrite Hx, Hy.
  assert (Hoff : match EnumerationObject.containers (h_enum h2 xo) with
                 | Some c => Z.of_nat (length (h_containers h2 c))
                 | None => 0%Z
                 end = offset).
  { unfold offset, enumContainers.
    by destruct (EnumerationObject.containers (h_enum h2 xo)). }
  rewrite Hoff. fold ya. rewrite Hrun.
  eexists. split; [reflexivity|].
  rewrite Henum.
  assert (Hcount : NoDup (h_instances h2 ya) ->
    forall i, i ∈ h_instances h2 ya ->
      VisualObjectInstance.containerIdx (h_instance h3 i) =
      (fun idx => (idx + offset)%Z)
        <$> VisualObjectInstance.containerIdx (h_instance h2 i)).
  { intros Hnd i Hi. rewrite Hinst.
    apply NoDup_ListNoDup in Hnd.
    rewrite (proj1 (NoDup_count_occ' Nat.eq_dec _) Hnd i)
      by by apply list_elem_of_In.
    unfold rebaseBy. cbn.
    destruct (VisualObjectInstance.containerIdx (h_instance h2 i)); cbn; [|done].
    f_equal. lia. }
  unfold enumContainers, isEmpty. rewrite Hcs.
  destruct (EnumerationObject.containers (h_enum h2 yo)) as [yc|] eqn:Eyc; cbn.
  - case_bool_decide as Hempty; cbn.
    + rewrite ?Henum, ?Hcs, ?Hempty, ?app_nil_r. repeat split; try done.
    + destruct (EnumerationObject.containers (h_enum h2 xo)) as [xc|] eqn:Exc; cbn.
      * rewrite Henum, Exc. cbn. rewrite fn_lookup_insert.
        repeat split; try done.
      * rewrite fn_lookup_insert. cbn. rewrite ?Henum, ?Hcs.
        repeat split; try done.
  - rewrite ?Henum, ?Hcs, ?app_nil_r. repeat split; try done.
Qed.

Lemma C7_merge_rebase_witness :
  exists h',
    merge 2 twoResults (EnumObject 0) (EnumObject 1) = Some (h', EnumObject 0) /\
    h_instances h' 2 = [6; 7] /\
    VisualObjectInstance.containerIdx (h_instance h' 7) = Some 1%Z /\
    enumContainers h' 0 = [8; 9].
Proof.
  destruct (C7_merge_rebase twoResults (EnumObject 0) (EnumObject 1)
              twoResults twoResults 0 1 2 eq_refl eq_refl)
    as (h' & Hm & _ & Ha & _ & Hi & Hc).
  - vm_compute. lia.
  - vm_compute. lia.
  - exists h'. split; [exact Hm|]. split; [exact Ha|]. split; [|exact Hc].
    apply (Hi ltac:(vm_compute; repeat constructor; by intros ?%elem_of_nil) 7).
    vm_compute. apply list_elem_of_here.
Defined.

(** C7, as the claim states it, fails: both inputs below normalise to
    results, yet merging the object at 0 with itself gives no result at
    all, for any number of steps, because the loop appends to the array
    it reads. *)
Lemma C7_merge_shared_array_counterexample :
  isResult (normalize twoResults (EnumObject 0)).2 = true /\
  h_instances twoResults
    (EnumerationObject.instances (h_enum twoResults 0)) = [6] /\
  ~ (exists fuel r,
       merge fuel twoResults (EnumObject 0) (EnumObject 0) = Some r).
Proof.
  split; [reflexivity|]. split; [reflexivity|].
  intros (fuel & r & H).
  rewrite merge_same_object_no_result in H; [discriminate|].
  vm_compute. discriminate.
Qed.

(** * Further properties of the code *)

(** ** extend, key by key *)

Lemma bagGet_absent (bag : Bag) key :
  bag !! key = None -> truthy (bagGet bag key) = inherited key.
Proof. unfold bagGet. intros ->. by destruct (inherited key). Qed.

Lemma extendBag_empty_lookup (sourceValues : Bag) key :
  extendBag ∅ sourceValues !! key =
  if inherited key then None else sourceValues !! key.
Proof.
  rewrite extendBag_lookup, bagGet_absent, lookup_empty by apply lookup_empty.
  by destruct (inherited key), (sourceValues !! key).
Qed.

Lemma extendBag_twice (targetValues sourceValues : Bag) :
  extendBag (extendBag targetValues sourceValues) sourceValues
  = extendBag targetValues sourceValues.
Proof.
  apply map_eq. intros k. rewrite !extendBag_lookup.
  destruct (sourceValues !! k) as [v|] eqn:Es; [|done].
  destruct (truthy (bagGet targetValues k)) eqn:Et.
  - assert (bagGet (extendBag targetValues sourceValues) k
            = bagGet targetValues k) as ->; [|by rewrite Et].
    unfold bagGet. by rewrite extendBag_lookup, Es, Et.
  - unfold bagGet. rewrite extendBag_lookup, Es, Et. by destruct (truthy v).
Qed.

(** X1.  When both instances carry the field, [extend] decides key by key: a
    key of the source is written into the target's bag when the target
    reads falsy under it (its own value is falsy, or it has no such key
    and the key does not name a member of [Object.prototype]); every
    other key of the target keeps its value, and no other bag and no
    instance changes. *)
Theorem extend_key_by_key (h : Heap) (target source : loc) (p : PropertyName)
    (tb sb : loc) :
  getField p (h_instance h target) = Some tb ->
  getField p (h_instance h source) = Some sb ->
  let h' := extend h target source p in
  (forall key,
     h_bag h' tb !! key =
     match h_bag h sb !! key with
     | Some v => if truthy (bagGet (h_bag h tb) key)
                 then h_bag h tb !! key else Some v
     | None => h_bag h tb !! key
     end) /\
  (forall l, l <> tb -> h_bag h' l = h_bag h l) /\
  h_instance h' = h_instance h /\
  h_next h' = h_next h.
Proof.
  intros Ht Hs h'.
  destruct (extend_bag h target source p tb sb Ht Hs) as (Hi & Hb & Ho).
  fold h' in Hi, Hb, Ho. split; [|split; [done|split; [done|]]].
  - intros key. by rewrite Hb, extendBag_lookup.
  - subst h'. unfold extend. by rewrite Hs, Ht.
Qed.

Lemma extend_key_by_key_witness :
  let h := twoInstances {[ "p" := JsNumber 1; "r" := JsNumber 0 ]}
                        {[ "p" := JsNumber 2; "q" := JsNumber 3; "r" := JsNumber 4 ]} in
  h_bag (extend h 0 1 Properties) 2 !! "p" = Some (JsNumber 1) /\
  h_bag (extend h 0 1 Properties) 2 !! "q" = Some (JsNumber 3) /\
  h_bag (extend h 0 1 Properties) 2 !! "r" = Some (JsNumber 4).
Proof.
  intros h.
  destruct (extend_key_by_key h 0 1 Properties 2 3 eq_refl eq_refl) as (H & _).
  split; [|split].
  - rewrite (H "p"). vm_compute. reflexivity.
  - rewrite (H "q"). vm_compute. reflexivity.
  - rewrite (H "r"). vm_compute. reflexivity.
Defined.

(** X2.  When the target lacks the field and the source has it, [extend]
    gives the target a new bag that holds the keys of the source's bag,
    except those named like a member of [Object.prototype], which a new
    object reads truthy and which are therefore skipped; the source's bag
    and every other bag stay as they were, so target and source do not
    share a bag afterwards. *)
Theorem extend_allocates_copy (h : Heap) (target source : loc) (p : PropertyName)
    (sb : loc) :
  getField p (h_instance h target) = None ->
  getField p (h_instance h source) = Some sb ->
  sb < h_next h ->
  let h' := extend h target source p in
  getField p (h_instance h' target) = Some (h_next h) /\
  (forall key,
     h_bag h' (h_next h) !! key =
     if inherited key then None else h_bag h sb !! key) /\
  (forall l, l <> h_next h -> h_bag h' l = h_bag h l) /\
  (forall l, l <> target -> h_instance h' l = h_instance h l) /\
  h_next h' = S (h_next h).
Proof.
  intros Ht Hs Hsb h'. subst h'. unfold extend. rewrite Hs, Ht. cbn.
  rewrite !fn_lookup_insert.
  rewrite (fn_lookup_insert_ne _ (h_next h) sb) by lia.
  split; [by destruct p|]. split; [intros key; apply extendBag_empty_lookup|].
  split.
  - intros l Hl. by rewrite !fn_lookup_insert_ne.
  - split; [|done]. intros l Hl. by rewrite fn_lookup_insert_ne.
Qed.

Lemma extend_allocates_copy_witness :
  let h := setInstance
             (twoInstances ∅ {[ "q" := JsNumber 3; "toString" := JsNumber 5 ]}) 0
             (VisualObjectInstance.mk (Some "general") SelUndefined None None None) in
  VisualObjectInstance.properties (h_instance (extend h 0 1 Properties) 0) = Some 4 /\
  h_bag (extend h 0 1 Properties) 4 !! "q" = Some (JsNumber 3) /\
  h_bag (extend h 0 1 Properties) 4 !! "toString" = None.
Proof.
  intros h.
  destruct (extend_allocates_copy h 0 1 Properties 3 eq_refl eq_refl) as (Hf & Hb & _).
  - vm_compute. lia.
  - split; [exact Hf|]. split; [exact (Hb "q")|exact (Hb "toString")].
Defined.

(** X3.  The loop of [extend] never drops a key of the target, and the
    only keys it adds are keys of the source: the target's bag ends with
    its own keys and those keys of the source that do not name a member
    of [Object.prototype]. *)
Theorem extendBag_dom (targetValues sourceValues : Bag) (key : string) :
  key ∈ dom (extendBag targetValues sourceValues) <->
  key ∈ dom targetValues \/ (key ∈ dom sourceValues /\ inherited key = false).
Proof.
  rewrite !elem_of_dom, extendBag_lookup.
  destruct (sourceValues !! key) as [v|] eqn:Es.
  - destruct (targetValues !! key) as [w|] eqn:Et.
    + split; [intros _; left; by eexists|intros _].
      destruct (truthy _); by eexists.
    + rewrite bagGet_absent by done. destruct (inherited key).
      * split; [by intros [? [=]]|]. intros [[? [=]]|[_ [=]]].
      * split; [intros _; right; split; [by eexists|done]|by eexists].
  - split; [by left|]. intros [?|[[? [=]] _]]; done.
Qed.

(** X4.  Extending a second time from the same source changes nothing: with
    both bags in place, the heap's bags after two calls of [extend] are
    the bags after one. *)
Theorem extend_twice (h : Heap) (target source : loc) (p : PropertyName)
    (tb sb : loc) :
  getField p (h_instance h target) = Some tb ->
  getField p (h_instance h source) = Some sb ->
  forall l,
    h_bag (extend (extend h target source p) target source p) l
    = h_bag (extend h target source p) l.
Proof.
  intros Ht Hs l.
  destruct (extend_bag h target source p tb sb Ht Hs) as (Hi & Hb & Ho).
  set (h1 := extend h target source p) in *.
  destruct (extend_bag h1 target source p tb sb) as (_ & Hb2 & Ho2).
  { by rewrite Hi. } { by rewrite Hi. }
  destruct (decide (l = tb)) as [->|Hl]; [|by apply Ho2].
  rewrite Hb2, Hb. destruct (decide (sb = tb)) as [->|Hsb].
  - rewrite Hb. apply extendBag_same.
  - rewrite (Ho sb Hsb). apply extendBag_twice.
Qed.

Lemma extend_twice_witness :
  let h := twoInstances {[ "p" := JsNumber 0 ]} {[ "p" := JsNumber 2 ]} in
  h_bag (extend (extend h 0 1 Properties) 0 1 Properties) 2
  = h_bag (extend h 0 1 Properties) 2.
Proof.
  intros h. apply (extend_twice h 0 1 Properties 2 3); reflexivity.
Defined.

(** ** The merge predicate is an equivalence *)

Lemma selectorEquals_true h x y :
  selectorEquals h x y = true <->
  (selectorTruthy x = false /\ selectorTruthy y = false) \/
  (exists a b, x = SelObject a /\ y = SelObject b /\
     Selector.id (h_selector h a) = Selector.id (h_selector h b) /\
     Selector.metadata (h_selector h a) = Selector.metadata (h_selector h b)).
Proof.
  destruct x as [| | |a], y as [| | |b];
    try (split; [intros _; by left|done]);
    try (split; [done|intros [[? ?]|(? & ? & ? & ? & _)]; done]).
  rewrite selectorEquals_objects. split.
  - intros [? ?]. right. by exists a, b.
  - intros [[? ?]|(a' & b' & [= <-] & [= <-] & ? & ?)]; done.
Qed.

Lemma selectorEquals_sym h x y : selectorEquals h x y = selectorEquals h y x.
Proof.
  apply Bool.eq_iff_eq_true. rewrite !selectorEquals_true.
  split; (intros [[? ?]|(a & b & -> & -> & ? & ?)]; [by left|right]);
    by exists b, a.
Qed.

Lemma selectorEquals_trans h x y z :
  selectorEquals h x y = true -> selectorEquals h y z = true ->
  selectorEquals h x z = true.
Proof.
  rewrite !selectorEquals_true.
  intros [[Hx Hy]|(a & b & -> & -> & Hi & Hm)]
         [[Hy' Hz]|(b' & c & Hb & -> & Hi' & Hm')]; simplify_eq/=.
  - by left.
  - right. exists a, c. repeat split; congruence.
Qed.

(** X5.  [canMerge] is reflexive, symmetric and transitive: "same target" is
    an equivalence on instances, and an instance can always merge with
    itself. *)
Theorem canMerge_equivalence (h : Heap) :
  (forall x, canMerge h x x = true) /\
  (forall x y, canMerge h x y = canMerge h y x) /\
  (forall x y z, canMerge h x y = true -> canMerge h y z = true ->
                 canMerge h x z = true).
Proof.
  split; [|split].
  - intros x. apply canMerge_spec. repeat split.
    apply selectorEquals_true. destruct (VisualObjectInstance.selector x);
      [by left..|right]. by eexists _, _.
  - intros x y. apply Bool.eq_iff_eq_true. rewrite !canMerge_spec.
    rewrite (selectorEquals_sym h (VisualObjectInstance.selector y)).
    intuition congruence.
  - intros x y z (? & ? & ?)%canMerge_spec (? & ? & ?)%canMerge_spec.
    apply canMerge_spec. repeat split; [congruence..|].
    by eapply selectorEquals_trans.
Qed.

Lemma canMerge_equivalence_witness :
  let x := VisualObjectInstance.mk (Some "a") SelNull (Some 1%Z) None None in
  let y := VisualObjectInstance.mk (Some "a") SelFalse (Some 1%Z) (Some 5) None in
  let z := VisualObjectInstance.mk (Some "a") SelUndefined (Some 1%Z) None (Some 6) in
  canMerge (blankHeap 0) x z = true.
Proof.
  intros x y z. destruct (canMerge_equivalence (blankHeap 0)) as (_ & _ & H).
  apply (H x y z); reflexivity.
Defined.

(** ** No two accumulated instances describe the same target *)

Lemma extend_selector_field h t s p l :
  VisualObjectInstance.selector (h_instance (extend h t s p) l) =
  VisualObjectInstance.selector (h_instance h l).
Proof.
  unfold extend. destruct (getField p (h_instance h s)); [|done].
  destruct (getField p (h_instance h t)); [done|]. cbn.
  unfold insert, fn_insert. case_decide; [subst|done]. by destruct p.
Qed.

Lemma canMerge_fields h h' x y x' y' :
  h_selector h' = h_selector h ->
  VisualObjectInstance.objectName x' = VisualObjectInstance.objectName x ->
  VisualObjectInstance.containerIdx x' = VisualObjectInstance.containerIdx x ->
  VisualObjectInstance.selector x' = VisualObjectInstance.selector x ->
  VisualObjectInstance.objectName y' = VisualObjectInstance.objectName y ->
  VisualObjectInstance.containerIdx y' = VisualObjectInstance.containerIdx y ->
  VisualObjectInstance.selector y' = VisualObjectInstance.selector y ->
  canMerge h' x' y' = canMerge h x y.
Proof.
  intros Hs H1 H2 H3 H4 H5 H6. unfold canMerge.
  rewrite H1, H2, H3, H4, H5, H6. unfold selectorEquals. by rewrite Hs.
Qed.

Lemma tryMerge_fields h xs i h' :
  tryMerge h xs i = Some h' ->
  h_selector h' = h_selector h /\
  forall l,
    VisualObjectInstance.objectName (h_instance h' l)
      = VisualObjectInstance.objectName (h_instance h l) /\
    VisualObjectInstance.containerIdx (h_instance h' l)
      = VisualObjectInstance.containerIdx (h_instance h l) /\
    VisualObjectInstance.selector (h_instance h' l)
      = VisualObjectInstance.selector (h_instance h l).
Proof.
  induction xs as [|e xs IH]; cbn; [done|].
  destruct (canMerge _ _ _); [|done].
  intros [= <-]. split; [by rewrite !extend_selector|].
  intros l. by rewrite !extend_objectName, !extend_containerIdx,
                       !extend_selector_field.
Qed.

Lemma stamp_other h cursor i l :
  l <> i -> h_instance (stamp h cursor i) l = h_instance h l.
Proof.
  intros Hl. destruct cursor; cbn; [|done]. by rewrite fn_lookup_insert_ne.
Qed.

(** After [pushInstance], whether two instances can merge is what it was
    once the incoming instance had been stamped. *)
Lemma pushInstance_targets h b i m x y :
  let hs := stamp h (Builder.containerIdx b) i in
  let r := pushInstance h b i m in
  canMerge r.1 (h_instance r.1 x) (h_instance r.1 y)
  = canMerge h (h_instance hs x) (h_instance hs y).
Proof.
  intros hs r. subst r hs. rewrite pushInstance_unfold. cbn zeta.
  rewrite <- !atMergeCheck_instance.
  destruct (if m then tryMerge _ _ i else None) as [h'|] eqn:E; cbn.
  - destruct m; [|done].
    destruct (tryMerge_fields _ _ _ _ E) as (Hs & Hf).
    destruct (Hf x) as (? & ? & ?), (Hf y) as (? & ? & ?).
    apply canMerge_fields; try done. by rewrite Hs, atMergeCheck_selector.
  - apply canMerge_selector, atMergeCheck_selector.
Qed.

Lemma pushInstance_distinct_step h b i :
  distinctTargets h (builderInstances h b) ->
  i ∉ builderInstances h b ->
  let r := pushInstance h b i true in
  distinctTargets r.1 (builderInstances r.1 r.2).
Proof.
  intros Hd Hni r j k x y Hjk Hx Hy. subst r. rewrite pushInstance_targets.
  assert (Hold : forall n z, builderInstances h b !! n = Some z ->
            h_instance (stamp h (Builder.containerIdx b) i) z = h_instance h z).
  { intros n z Hz. apply stamp_other. intros ->.
    apply Hni. by eapply list_elem_of_lookup_2. }
  destruct (pushInstance_cases h b i true)
    as [(Ha & _ & _ & Hno)|(Ha & _)]; rewrite Ha in Hx, Hy.
  - destruct Hno as [?|Hno]; [done|].
    assert (Hxj : builderInstances h b !! j = Some x).
    { pose proof (lookup_lt_Some _ _ _ Hy) as Hlen.
      rewrite length_app in Hlen. change (length [i]) with 1 in Hlen.
      assert (j < length (builderInstances h b))%nat as Hj by lia.
      by rewrite lookup_app_l in Hx. }
    destruct (decide (k < length (builderInstances h b))) as [Hk|Hk].
    + rewrite lookup_app_l in Hy by done.
      rewrite (Hold _ _ Hxj), (Hold _ _ Hy). exact (Hd j k x y Hjk Hxj Hy).
    + rewrite lookup_app_r in Hy by lia.
      apply list_lookup_singleton_Some in Hy as [_ <-].
      apply Hno. by eapply list_elem_of_lookup_2.
  - rewrite (Hold _ _ Hx), (Hold _ _ Hy). exact (Hd j k x y Hjk Hx Hy).
Qed.

Lemma pushContainer_rest h b c :
  h_selector (pushContainer h b c).1 = h_selector h /\
  h_enum (pushContainer h b c).1 = h_enum h.
Proof. unfold pushContainer. by destruct (Builder.containers b). Qed.

Lemma run_distinct calls :
  forall s,
    allMerging calls = true ->
    NoDup (pushed calls) ->
    (forall i, i ∈ pushed calls -> i ∉ builderInstances s.1 s.2) ->
    distinctTargets s.1 (builderInstances s.1 s.2) ->
    distinctTargets (run s calls).1
                    (builderInstances (run s calls).1 (run s calls).2).
Proof.
  induction calls as [|c calls IH]; intros [h b] Hm Hnd Hfresh Hd; [done|].
  cbn [run foldl]. fold (run (call (h, b) c) calls).
  destruct c as [i m|k|]; cbn in Hm, Hnd, Hfresh |- *.
  - apply andb_true_iff in Hm as [-> Hm].
    apply list.NoDup_cons in Hnd as [Hi Hnd].
    apply IH; [done..| |].
    + intros i' Hi' Hin.
      destruct (pushInstance_cases h b i true) as [(Ha & _)|(Ha & _)];
        rewrite Ha in Hin.
      * apply elem_of_app in Hin as [Hin|Hin%list_elem_of_singleton].
        -- eapply Hfresh; [by right|done].
        -- by subst.
      * eapply Hfresh; [by right|done].
    + apply pushInstance_distinct_step; [done|]. apply Hfresh. by left.
  - destruct (pushContainer_view h b k) as (_ & _ & Hi & _ & Harr & Hinst & _).
    destruct (pushContainer_rest h b k) as (Hsel & _).
    assert (Hb : builderInstances (pushContainer h b k).1 (pushContainer h b k).2
                 = builderInstances h b).
    { unfold builderInstances. by rewrite Hi, Harr. }
    apply IH; [done..| |].
    + intros i Hi'. rewrite Hb. by apply Hfresh.
    + rewrite Hb. intros j n x y Hjn Hx Hy.
      rewrite Hinst, (canMerge_selector h) by done. exact (Hd j n x y Hjn Hx Hy).
  - by apply IH.
Qed.

(** X6.  When every push asks for merging and no instance object is pushed
    twice, the accumulated sequence never holds two instances that could
    merge: one entry per object name, container and selector. *)
Theorem run_targets_distinct (h : Heap) (calls : list Call) :
  allMerging calls = true ->
  NoDup (pushed calls) ->
  let s := run (h, newBuilder) calls in
  distinctTargets s.1 (builderInstances s.1 s.2).
Proof.
  intros Hm Hnd s. apply run_distinct; [done..| |].
  - intros i _ Hin. by apply elem_of_nil in Hin.
  - intros j k x y _ Hx. done.
Qed.

Lemma run_targets_distinct_witness :
  let s := run (twoInstances ∅ ∅, newBuilder)
               [PushContainer 9; PushInstance 0 true; PushInstance 1 true] in
  distinctTargets s.1 (builderInstances s.1 s.2).
Proof.
  apply (run_targets_distinct (twoInstances ∅ ∅)
           [PushContainer 9; PushInstance 0 true; PushInstance 1 true]).
  - reflexivity.
  - vm_compute. apply NoDup_cons_2; [|apply NoDup_singleton].
    intros ?%list_elem_of_singleton. discriminate.
Defined.

(** ** The cursor and the validity of [containerIdx] *)

Lemma arrayGet_of_nat (array : list loc) (n : nat) :
  arrayGet array (Some (Z.of_nat n)) = array !! n.
Proof.
  unfold arrayGet. rewrite (proj2 (Z.leb_le _ _)) by lia. by rewrite Nat2Z.id.
Qed.

Lemma pushInstance_containers h b i m :
  builderContainers (pushInstance h b i m).1 (pushInstance h b i m).2
  = builderContainers h b.
Proof.
  destruct (pushInstance_frame h b i m) as (_ & Hk & _ & Hcs & _).
  unfold builderContainers. by rewrite Hk, Hcs.
Qed.

Lemma call_cursorAtLast s c :
  cursorAtLast s.1 s.2 -> cursorAtLast (call s c).1 (call s c).2.
Proof.
  destruct s as [h b], c as [i m|k|]; cbn; intros Hinv idx Hidx.
  - destruct (pushInstance_frame h b i m) as (Hc & _).
    rewrite pushInstance_containers. apply Hinv. by rewrite <- Hc.
  - destruct (pushContainer_view h b k) as (Hv & Hc & _).
    rewrite Hc in Hidx. split; [|congruence].
    rewrite Hv. by destruct (builderContainers h b).
  - done.
Qed.

Lemma run_cursorAtLast calls s :
  cursorAtLast s.1 s.2 -> cursorAtLast (run s calls).1 (run s calls).2.
Proof.
  revert s. induction calls as [|c calls IH]; intros s Hinv; [done|].
  cbn [run foldl]. fold (run (call s c) calls). by apply IH, call_cursorAtLast.
Qed.

(** X7.  On a builder that started new, the cursor, when set, is the index of
    the container pushed last: a valid index, at which the container
    sequence holds its last element.  The containers pushed before are
    never the cursor again, also after [popContainer]. *)
Theorem run_cursor_at_last (h : Heap) (calls : list Call) (idx : Z) :
  let s := run (h, newBuilder) calls in
  Builder.containerIdx s.2 = Some idx ->
  exists before c,
    builderContainers s.1 s.2 = before ++ [c] /\
    idx = Z.of_nat (length before) /\
    arrayGet (builderContainers s.1 s.2) (Some idx) = Some c.
Proof.
  intros s Hidx.
  destruct (run_cursorAtLast calls (h, newBuilder) ltac:(done) idx Hidx)
    as [Hne Hlen].
  fold s in Hne, Hlen.
  destruct (builderContainers s.1 s.2) as [|c cs _] using rev_ind; [done|].
  rewrite length_app in Hlen. cbn in Hlen.
  assert (idx = Z.of_nat (length cs)) as -> by lia.
  exists cs, c. split; [done|]. split; [done|].
  rewrite arrayGet_of_nat. by rewrite lookup_app_r, Nat.sub_diag.
Qed.

Lemma run_cursor_at_last_witness :
  let s := run (blankHeap 5, newBuilder)
               [PushContainer 3; PopContainer; PushContainer 4] in
  exists before c,
    builderContainers s.1 s.2 = before ++ [c] /\
    1%Z = Z.of_nat (length before) /\
    arrayGet (builderContainers s.1 s.2) (Some 1%Z) = Some c.
Proof.
  exact (run_cursor_at_last (blankHeap 5)
           [PushContainer 3; PopContainer; PushContainer 4] 1%Z eq_refl).
Defined.

Lemma call_valid s c :
  cursorAtLast s.1 s.2 -> validContainerIdx s.1 s.2 ->
  validContainerIdx (call s c).1 (call s c).2.
Proof.
  destruct s as [h b], c as [i m|k|]; cbn; intros Hcur Hinv l idx Hl.
  - destruct (pushInstance_frame h b i m) as (_ & _ & _ & _ & Hf).
    rewrite pushInstance_containers. rewrite Hf, stamp_containerIdx in Hl.
    destruct (Builder.containerIdx b) as [cur|] eqn:Ec; [|by eapply Hinv].
    case_bool_decide; [|by eapply Hinv]. simplify_eq.
    destruct (Hcur idx Ec) as [Hne ->].
    destruct (builderContainers h b); [done|]. cbn [length]. lia.
  - destruct (pushContainer_view h b k) as (Hv & _ & _ & _ & _ & Hinst & _).
    rewrite Hinst in Hl. apply Hinv in Hl. rewrite Hv, length_app. cbn. lia.
  - by eapply Hinv.
Qed.

Lemma run_valid calls s :
  cursorAtLast s.1 s.2 -> validContainerIdx s.1 s.2 ->
  validContainerIdx (run s calls).1 (run s calls).2.
Proof.
  revert s. induction calls as [|c calls IH]; intros s Hcur Hinv; [done|].
  cbn [run foldl]. fold (run (call s c) calls).
  apply IH; [by apply call_cursorAtLast|by apply call_valid].
Qed.

Lemma getContainer_Some h o i c :
  getContainerForInstance h o i = Returns (Some c) <->
  exists idx,
    VisualObjectInstance.containerIdx (h_instance h i) = Some idx /\
    (0 <= idx)%Z /\ enumContainers h o !! Z.to_nat idx = Some c.
Proof.
  unfold getContainerForInstance, enumContainers, arrayGet.
  destruct (EnumerationObject.containers (h_enum h o)) as [k|]; cbn.
  - destruct (VisualObjectInstance.containerIdx (h_instance h i)) as [idx|].
    + destruct (Z.leb_spec 0 idx).
      * split; [intros [= ?]; eauto|]. by intros (? & [= <-] & _ & ->).
      * split; [done|]. intros (? & [= <-] & ? & _). lia.
    + split; [done|]. by intros (? & [=] & _).
  - split; [done|]. by intros (? & _ & _ & ?).
Qed.

(** X8.  When the instances come without a [containerIdx], every
    [containerIdx] the builder leaves behind is an index into its
    containers, so on the result of [complete] the lookup
    [getContainerForInstance] returns a container for every instance
    that has one: it neither throws nor returns [undefined]. *)
Theorem run_containerIdx_valid (h : Heap) (calls : list Call) :
  (forall l, VisualObjectInstance.containerIdx (h_instance h l) = None) ->
  let s := run (h, newBuilder) calls in
  let r := complete s.1 s.2 in
  validContainerIdx s.1 s.2 /\
  forall o l idx,
    r.2 = EnumObject o ->
    VisualObjectInstance.containerIdx (h_instance r.1 l) = Some idx ->
    exists c, getContainerForInstance r.1 o l = Returns (Some c).
Proof.
  intros Hnone s r.
  assert (Hv : validContainerIdx s.1 s.2).
  { apply run_valid; [done|]. intros l idx Hl. cbn in Hl. by rewrite Hnone in Hl. }
  split; [done|]. intros o l idx Ho Hl. subst r.
  destruct (Builder.instances s.2) as [arr|] eqn:Earr;
    [|unfold complete in Ho; by rewrite Earr in Ho].
  destruct (complete_view s.1 s.2 arr Earr) as (Hr & He & _ & Hcs & Hinst & _).
  rewrite Hr in Ho. injection Ho as <-. rewrite Hinst in Hl.
  pose proof (Hv l idx Hl) as [H0 Hlt].
  destruct (lookup_lt_is_Some_2 (builderContainers s.1 s.2) (Z.to_nat idx))
    as [c Hc]; [lia|].
  exists c. apply getContainer_Some. exists idx. rewrite Hinst.
  split; [done|]. split; [done|].
  unfold enumContainers. rewrite He, Hcs. exact Hc.
Qed.

Lemma run_containerIdx_valid_witness :
  let s := run (blankHeap 5, newBuilder)
               [PushContainer 3; PushInstance 0 true; PushContainer 4;
                PushInstance 1 true] in
  exists c, getContainerForInstance (complete s.1 s.2).1 7 1 = Returns (Some c).
Proof.
  intros s.
  destruct (run_containerIdx_valid (blankHeap 5)
              [PushContainer 3; PushInstance 0 true; PushContainer 4;
               PushInstance 1 true] ltac:(reflexivity)) as (_ & H).
  apply (H 7 1 1%Z); reflexivity.
Defined.

(** X9.  Push a container, push an instance, complete: looking the instance
    up in the result gives that container, whatever was accumulated
    before and whether the instance was appended or merged away. *)
Theorem getContainerForInstance_after_push (h : Heap) (b : Builder.t)
    (c i : loc) (m : bool) :
  let s1 := pushContainer h b c in
  let s2 := pushInstance s1.1 s1.2 i m in
  let r := complete s2.1 s2.2 in
  exists o,
    r.2 = EnumObject o /\
    getContainerForInstance r.1 o i = Returns (Some c).
Proof.
  intros s1 s2 r.
  destruct (pushContainer_view h b c) as (Hv & Hc & _). fold s1 in Hv, Hc.
  destruct (pushInstance_frame s1.1 s1.2 i m) as (_ & _ & [arr Harr] & _ & Hf).
  pose proof (pushInstance_containers s1.1 s1.2 i m) as Hcs. fold s2 in Harr, Hf, Hcs.
  destruct (complete_view s2.1 s2.2 arr Harr) as (Hr & He & _ & Hks & Hinst & _).
  fold r in Hr, He, Hks, Hinst.
  exists (h_next s2.1). split; [done|].
  apply getContainer_Some.
  exists (Z.of_nat (length (builderContainers h b))).
  split; [|split; [lia|]].
  - rewrite Hinst, Hf, stamp_containerIdx, Hc, Hv, length_app.
    rewrite bool_decide_eq_true_2 by done. cbn. f_equal. lia.
  - unfold enumContainers. rewrite He, Hks. cbn.
    change (from_option (h_containers s2.1) [] (Builder.containers s2.2))
      with (builderContainers s2.1 s2.2).
    rewrite Hcs, Hv, Nat2Z.id. by rewrite lookup_app_r, Nat.sub_diag.
Qed.

(** ** The accumulated sequence follows the order of the pushes *)

Lemma run_sublist calls :
  forall s,
    builderInstances (run s calls).1 (run s calls).2
      `sublist_of` builderInstances s.1 s.2 ++ pushed calls.
Proof.
  induction calls as [|c calls IH]; intros [h b].
  - cbn. by rewrite app_nil_r.
  - cbn [run foldl]. fold (run (call (h, b) c) calls).
    etrans; [apply IH|]. destruct c as [i m|k|]; cbn.
    + destruct (pushInstance_cases h b i m) as [(Ha & _)|(Ha & _)]; rewrite Ha.
      * by rewrite <- app_assoc.
      * apply sublist_app; [done|]. by apply sublist_cons.
    + destruct (pushContainer_view h b k) as (_ & _ & Hi & _ & Harr & _).
      unfold builderInstances. by rewrite Hi, Harr.
    + done.
Qed.

Lemma run_no_merging calls :
  forall s,
    noneMerging calls = true ->
    builderInstances (run s calls).1 (run s calls).2
    = builderInstances s.1 s.2 ++ pushed calls.
Proof.
  induction calls as [|c calls IH]; intros [h b] Hm.
  - cbn. by rewrite app_nil_r.
  - cbn [run foldl]. fold (run (call (h, b) c) calls).
    cbn in Hm. apply andb_true_iff in Hm as [Hc Hm].
    rewrite IH by done. destruct c as [i m|k|]; cbn.
    + destruct m; [done|].
      destruct (pushInstance_cases h b i false) as [(Ha & _)|(_ & ? & _)];
        [|done].
      by rewrite Ha, <- app_assoc.
    + destruct (pushContainer_view h b k) as (_ & _ & Hi & _ & Harr & _).
      unfold builderInstances. by rewrite Hi, Harr.
    + done.
Qed.

(** X10.  The sequence a new builder accumulates is the sequence of pushed
    instances with some of them left out, in the order of the pushes; no
    instance is left out when every push turns merging off. *)
Theorem run_instances_in_push_order (h : Heap) (calls : list Call) :
  let s := run (h, newBuilder) calls in
  builderInstances s.1 s.2 `sublist_of` pushed calls /\
  (noneMerging calls = true -> builderInstances s.1 s.2 = pushed calls).
Proof.
  intros s. split.
  - apply (run_sublist calls (h, newBuilder)).
  - intros Hm. subst s. by rewrite (run_no_merging calls (h, newBuilder)).
Qed.

Lemma run_instances_in_push_order_witness :
  let s := run (twoInstances ∅ ∅, newBuilder)
               [PushInstance 0 false; PushContainer 9; PushInstance 0 false;
                PopContainer; PushInstance 1 false] in
  builderInstances s.1 s.2 = [0; 0; 1].
Proof.
  intros s.
  destruct (run_instances_in_push_order (twoInstances ∅ ∅)
              [PushInstance 0 false; PushContainer 9; PushInstance 0 false;
               PopContainer; PushInstance 1 false]) as (_ & H).
  apply H. reflexivity.
Defined.

(** ** complete hands out the builder's own arrays *)

Lemma tryMerge_enum h xs i h' :
  tryMerge h xs i = Some h' -> h_enum h' = h_enum h.
Proof.
  induction xs as [|e xs IH]; cbn; [done|].
  destruct (canMerge _ _ _); [|done].
  intros [= <-]. by rewrite !extend_enum.
Qed.

Lemma pushInstance_enum h b i m :
  h_enum (pushInstance h b i m).1 = h_enum h.
Proof.
  rewrite pushInstance_unfold. cbn zeta.
  pose proof (atMergeCheck_rest h b i) as (_ & _ & He).
  destruct (if m then tryMerge _ _ i else None) as [h'|] eqn:E; cbn; [|done].
  destruct m; [|done]. by rewrite (tryMerge_enum _ _ _ _ E).
Qed.

Lemma pushInstance_keeps_array h b i m arr :
  Builder.instances b = Some arr ->
  Builder.instances (pushInstance h b i m).2 = Some arr.
Proof.
  intros Harr. rewrite pushInstance_unfold. cbn zeta.
  assert ((ensureInstances h b).1.2 = b) as ->.
  { unfold ensureInstances. by rewrite Harr. }
  by destruct (if m then tryMerge _ _ i else None).
Qed.

(** X11.  The object [complete] returns holds the builder's array, not a copy:
    an instance appended to the builder afterwards is in the sequence of
    the object returned before. *)
Theorem complete_shares_instances (h : Heap) (b : Builder.t) (arr i o : loc) :
  Builder.instances b = Some arr ->
  let r := complete h b in
  let s := pushInstance r.1 b i false in
  r.2 = EnumObject o ->
  h_instances r.1 (EnumerationObject.instances (h_enum r.1 o)) = h_instances h arr /\
  h_instances s.1 (EnumerationObject.instances (h_enum s.1 o))
  = h_instances h arr ++ [i].
Proof.
  intros Harr r s Ho.
  destruct (complete_view h b arr Harr) as (Hr & He & Hi & _).
  fold r in Hr, He, Hi. rewrite Hr in Ho. injection Ho as <-.
  rewrite He, Hi. split; [done|].
  subst s. rewrite pushInstance_enum, He. cbn.
  destruct (pushInstance_cases r.1 b i false) as [(Ha & _)|(_ & ? & _)]; [|done].
  unfold builderInstances in Ha.
  rewrite (pushInstance_keeps_array _ _ _ _ _ Harr), Harr in Ha. cbn in Ha.
  by rewrite Ha, Hi.
Qed.

Lemma complete_shares_instances_witness :
  let s0 := run (blankHeap 3, newBuilder) [PushInstance 0 true] in
  let r := complete s0.1 s0.2 in
  h_instances (pushInstance r.1 s0.2 1 false).1
    (EnumerationObject.instances (h_enum (pushInstance r.1 s0.2 1 false).1 4))
  = [0; 1].
Proof.
  intros s0 r.
  destruct (complete_shares_instances s0.1 s0.2 3 1 4 eq_refl eq_refl) as (_ & H).
  exact H.
Defined.

(** ** Truthy values survive every call *)

Lemma extend_truthy h t s p l key :
  l < h_next h ->
  truthy (bagGet (h_bag h l) key) = true ->
  h_bag (extend h t s p) l !! key = h_bag h l !! key /\
  h_next h <= h_next (extend h t s p).
Proof.
  intros Hl Ht. unfold extend.
  destruct (getField p (h_instance h s)) as [sb|]; [|done].
  destruct (getField p (h_instance h t)) as [tb|]; cbn.
  - split; [|done]. destruct (decide (l = tb)) as [->|Hne].
    + rewrite fn_lookup_insert. by apply extendBag_keeps_truthy.
    + by rewrite fn_lookup_insert_ne.
  - split; [|lia]. by rewrite !fn_lookup_insert_ne by lia.
Qed.

Lemma bagGet_lookup (bag bag' : Bag) key :
  bag' !! key = bag !! key -> bagGet bag' key = bagGet bag key.
Proof. unfold bagGet. by intros ->. Qed.

Lemma tryMerge_truthy h xs i h' l key :
  tryMerge h xs i = Some h' ->
  l < h_next h ->
  truthy (bagGet (h_bag h l) key) = true ->
  h_bag h' l !! key = h_bag h l !! key /\ h_next h <= h_next h'.
Proof.
  induction xs as [|e xs IH]; cbn; [done|].
  destruct (canMerge _ _ _); [|done].
  intros [= <-] Hl Ht.
  destruct (extend_truthy h e i Properties l key Hl Ht) as [H1 Hn1].
  destruct (extend_truthy (extend h e i Properties) e i ValidValues l key)
    as [H2 Hn2]; [lia|by rewrite (bagGet_lookup _ _ _ H1)|].
  split; [by rewrite H2|lia].
Qed.

Lemma call_truthy s c l key :
  l < h_next s.1 ->
  truthy (bagGet (h_bag s.1 l) key) = true ->
  h_bag (call s c).1 l !! key = h_bag s.1 l !! key /\
  h_next s.1 <= h_next (call s c).1.
Proof.
  destruct s as [h b], c as [i m|k|]; cbn; intros Hl Ht.
  - rewrite pushInstance_unfold. cbn zeta.
    assert (Hat : h_bag (atMergeCheck h b i) = h_bag h /\
                  h_next h <= h_next (atMergeCheck h b i)).
    { unfold atMergeCheck, ensureInstances.
      destruct (Builder.instances b), (Builder.containerIdx b); cbn; split;
        (done || lia). }
    destruct Hat as [Hb Hn].
    destruct (if m then tryMerge _ _ i else None) as [h'|] eqn:E; cbn.
    + destruct m; [|done].
      destruct (tryMerge_truthy _ _ _ _ l key E) as [H1 H2];
        [lia|by rewrite Hb|]. rewrite H1, Hb. split; [done|lia].
    + by rewrite Hb.
  - unfold pushContainer. destruct (Builder.containers b); cbn; split;
      (done || lia).
  - done.
Qed.

(** X12.  A truthy value stored under a key of an allocated bag is still there
    after any run of builder calls: nothing the builder merges in
    replaces it. *)
Theorem run_keeps_truthy_values (calls : list Call) (h : Heap) (b : Builder.t)
    (l : loc) (key : string) :
  l < h_next h ->
  truthy (bagGet (h_bag h l) key) = true ->
  h_bag (run (h, b) calls).1 l !! key = h_bag h l !! key.
Proof.
  revert h b. induction calls as [|c calls IH]; intros h b Hl Ht; [done|].
  cbn [run foldl]. fold (run (call (h, b) c) calls).
  destruct (call_truthy (h, b) c l key Hl Ht) as [H1 Hn]. cbn in H1, Hn.
  destruct (call (h, b) c) as [h1 b1] eqn:E. cbn in *.
  rewrite IH; [done|lia|by rewrite (bagGet_lookup _ _ _ H1)].
Qed.

Lemma run_keeps_truthy_values_witness :
  h_bag (run (twoInstances {[ "p" := JsNumber 1 ]}
                           {[ "p" := JsNumber 2; "q" := JsNumber 3 ]},
              newBuilder)
             [PushInstance 0 true; PushInstance 1 true]).1 2 !! "p"
  = Some (JsNumber 1).
Proof.
  rewrite run_keeps_truthy_values; [reflexivity|vm_compute; lia|reflexivity].
Defined.

(** ** merge keeps every instance with its container *)

(** What [merge] leaves behind when x and y do not share an instance
    array. *)
Lemma merge_effect h x y h1 h2 xo yo fuel :
  normalize h x = (h1, EnumObject xo) ->
  normalize h1 y = (h2, EnumObject yo) ->
  EnumerationObject.instances (h_enum h2 xo)
    <> EnumerationObject.instances (h_enum h2 yo) ->
  length (h_instances h2 (EnumerationObject.instances (h_enum h2 yo))) < fuel ->
  exists h',
    merge fuel h x y = Some (h', EnumObject xo) /\
    (forall i,
       h_instance h' i =
       rebaseBy (count_occ Nat.eq_dec
                   (h_instances h2 (EnumerationObject.instances (h_enum h2 yo))) i)
                (Z.of_nat (length (enumContainers h2 xo))) (h_instance h2 i)) /\
    enumContainers h' xo = enumContainers h2 xo ++ enumContainers h2 yo.
Proof.
  intros Hx Hy Hne Hfuel.
  set (ya := EnumerationObject.instances (h_enum h2 yo)) in *.
  set (offset := Z.of_nat (length (enumContainers h2 xo))).
  destruct (mergeLoop_spec xo ya offset (h_instances h2 ya) [] h2 fuel)
    as (h3 & Hrun & _ & _ & Hinst & Henum & Hcs & _); [done..|].
  cbn [length] in Hrun.
  unfold merge. rewrite Hx, Hy.
  assert (Hoff : match EnumerationObject.containers (h_enum h2 xo) with
                 | Some c => Z.of_nat (length (h_containers h2 c))
                 | None => 0%Z
                 end = offset).
  { unfold offset, enumContainers.
    by destruct (EnumerationObject.containers (h_enum h2 xo)). }
  rewrite Hoff. fold ya. rewrite Hrun.
  eexists. split; [reflexivity|].
  unfold enumContainers, isEmpty. rewrite Henum.
  destruct (EnumerationObject.containers (h_enum h2 yo)) as [yc|] eqn:Eyc; cbn.
  - case_bool_decide as Hempty; cbn.
    + rewrite ?Henum, ?Hcs. rewrite Hcs in Hempty.
      rewrite Hempty, app_nil_r. by split.
    + destruct (EnumerationObject.containers (h_enum h2 xo)) as [xc|] eqn:Exc; cbn.
      * rewrite Henum, Exc. cbn. rewrite fn_lookup_insert, ?Hcs. by split.
      * rewrite fn_lookup_insert. cbn. rewrite ?Hcs. by split.
  - rewrite ?Henum, ?Hcs, ?app_nil_r. by split.
Qed.

(** X13.  Rebasing does its job.  After [merge], looking an instance up in the
    merged object gives the container it had before: in y for an
    instance that y holds once, in x for an instance that y does not
    hold. *)
Theorem merge_keeps_containers (h : Heap) (x y : Enumeration) (h1 h2 : Heap)
    (xo yo : loc) (fuel : nat) :
  normalize h x = (h1, EnumObject xo) ->
  normalize h1 y = (h2, EnumObject yo) ->
  let ya := EnumerationObject.instances (h_enum h2 yo) in
  EnumerationObject.instances (h_enum h2 xo) <> ya ->
  length (h_instances h2 ya) < fuel ->
  exists h',
    merge fuel h x y = Some (h', EnumObject xo) /\
    (forall i c,
       count_occ Nat.eq_dec (h_instances h2 ya) i = 1 ->
       getContainerForInstance h2 yo i = Returns (Some c) ->
       getContainerForInstance h' xo i = Returns (Some c)) /\
    (forall i c,
       count_occ Nat.eq_dec (h_instances h2 ya) i = 0 ->
       getContainerForInstance h2 xo i = Returns (Some c) ->
       getContainerForInstance h' xo i = Returns (Some c)).
Proof.
  intros Hx Hy ya Hne Hfuel.
  destruct (merge_effect h x y h1 h2 xo yo fuel Hx Hy Hne Hfuel)
    as (h' & Hm & Hinst & Hcs).
  fold ya in Hinst. exists h'. split; [done|]. split.
  - intros i c Hcount (idx & Hidx & H0 & Hc)%getContainer_Some.
    apply getContainer_Some.
    exists (idx + Z.of_nat (length (enumContainers h2 xo)))%Z.
    split; [|split; [lia|]].
    + rewrite Hinst, Hcount. unfold rebaseBy. cbn. rewrite Hidx. cbn.
      f_equal. lia.
    + rewrite Hcs, lookup_app_r by lia.
      replace (Z.to_nat (idx + Z.of_nat (length (enumContainers h2 xo)))
               - length (enumContainers h2 xo)) with (Z.to_nat idx) by lia.
      done.
  - intros i c Hcount (idx & Hidx & H0 & Hc)%getContainer_Some.
    apply getContainer_Some. exists idx.
    split; [|split; [done|]].
    + by rewrite Hinst, Hcount, rebaseBy_0.
    + rewrite Hcs. by apply lookup_app_l_Some.
Qed.

Lemma merge_keeps_containers_witness :
  exists h',
    merge 2 twoResults (EnumObject 0) (EnumObject 1) = Some (h', EnumObject 0) /\
    getContainerForInstance h' 0 7 = Returns (Some 9) /\
    getContainerForInstance h' 0 6 = Returns (Some 8).
Proof.
  destruct (merge_keeps_containers twoResults (EnumObject 0) (EnumObject 1)
              twoResults twoResults 0 1 2 eq_refl eq_refl)
    as (h' & Hm & Hy & Hx).
  - vm_compute. lia.
  - vm_compute. lia.
  - exists h'. split; [exact Hm|]. split.
    + apply Hy; reflexivity.
    + apply Hx; reflexivity.
Defined.

(** ** merge on inputs that share an instance array *)

(** X14.  When x and y normalise to objects with one and the same non-empty
    instance array (an object merged with itself, a list merged with
    the object that wraps it, two results of [complete] on one builder),
    the loop appends to the array it reads and [merge] does not return. *)
Theorem merge_shared_array_never_returns (h : Heap) (x y : Enumeration)
    (h1 h2 : Heap) (xo yo : loc) (fuel : nat) :
  normalize h x = (h1, EnumObject xo) ->
  normalize h1 y = (h2, EnumObject yo) ->
  EnumerationObject.instances (h_enum h2 yo)
    = EnumerationObject.instances (h_enum h2 xo) ->
  h_instances h2 (EnumerationObject.instances (h_enum h2 xo)) <> [] ->
  merge fuel h x y = None.
Proof.
  intros Hx Hy Heq Hne. unfold merge. rewrite Hx, Hy, Heq.
  rewrite mergeLoop_same_array; [done|].
  destruct (h_instances h2 _); [done|cbn; lia].
Qed.

Lemma merge_shared_array_never_returns_witness :
  let s := run (blankHeap 3, newBuilder) [PushInstance 0 true] in
  let r1 := complete s.1 s.2 in
  let r2 := complete r1.1 s.2 in
  r1.2 <> r2.2 /\ merge 1000 r2.1 r1.2 r2.2 = None.
Proof.
  intros s r1 r2. split; [discriminate|].
  apply (merge_shared_array_never_returns r2.1 r1.2 r2.2 r2.1 r2.1 4 5 1000);
    [reflexivity|reflexivity|reflexivity|discriminate].
Defined.

(** ** Looking up a container when none was pushed *)

(** X15.  When no container was pushed, the object [complete] returns has no
    [containers] field, and [getContainerForInstance] on it throws for
    every instance. *)
Theorem getContainerForInstance_throws_without_containers (h : Heap)
    (calls : list Call) (o i : loc) :
  existsb isPushContainer calls = false ->
  let s := run (h, newBuilder) calls in
  let r := complete s.1 s.2 in
  r.2 = EnumObject o ->
  getContainerForInstance r.1 o i = Throws.
Proof.
  intros Hno s r Ho.
  assert (Hk : Builder.containers s.2 = None).
  { destruct (Builder.containers s.2) as [k|] eqn:E; [|done].
    destruct (proj1 (run_containers_allocated calls (h, newBuilder)))
      as [[? [=]]|?]; [by exists k|congruence]. }
  destruct (Builder.instances s.2) as [arr|] eqn:Earr;
    [|subst r; unfold complete in Ho; by rewrite Earr in Ho].
  destruct (complete_view s.1 s.2 arr Earr) as (Hr & He & _).
  fold r in Hr, He. rewrite Hr in Ho. injection Ho as <-.
  unfold getContainerForInstance. by rewrite He, Hk.
Qed.

Lemma getContainerForInstance_throws_without_containers_witness :
  let s := run (blankHeap 3, newBuilder) [PushInstance 0 true; PopContainer] in
  getContainerForInstance (complete s.1 s.2).1 4 0 = Throws.
Proof.
  apply (getContainerForInstance_throws_without_containers (blankHeap 3)
           [PushInstance 0 true; PopContainer] 4 0); reflexivity.
Defined.
